(** * Relay expression simplifier: [src/relay/transforms/simplify_expr.cc]

    A shallow embedding of the three simplification rules (reshape fusion,
    pad-into-convolution fusion, full/ones/zeros next to a broadcasting
    operator), of the registry that [ExprSimplifier] builds from them and of
    the pass that exposes it, together with the pattern language and the
    rewriter the rules are written against. *)

From Stdlib Require Import ZArith List String Ascii Bool Lia SpecFloat.
Import ListNotations.
Local Open Scope string_scope.
Local Open Scope list_scope.

Set Implicit Arguments.

(** Induction on the types that nest themselves in lists ([Ty], [Expr])
    carries the hypothesis on the elements as [list_all]. *)
Scheme All for list.

(* ================================================================== *)
(** ** Failure: [ICHECK], array indexing and null pointers            *)
(* ================================================================== *)

(** A failed [ICHECK] throws with its diagnostic; [Array::operator[]] and
    [Map::at] check their index or key; a null [as<T>()] result that is
    dereferenced without a check is a crash.  None of them returns to the
    caller, so all three end the computation. *)
Inductive Error : Type :=
| ICheckFailed (msg : string)
| IndexError
| NullPointer.

Inductive Result (A : Type) : Type :=
| Ok (a : A)
| Abort (e : Error).
Arguments Ok {A} a.
Arguments Abort {A} e.

Definition bindR {A B : Type} (r : Result A) (k : A -> Result B) : Result B :=
  match r with
  | Ok a => k a
  | Abort e => Abort e
  end.

Declare Scope result_scope.
Delimit Scope result_scope with res.
Notation "x <- c ;; k" := (bindR c (fun x => k))
  (at level 61, c at next level, right associativity) : result_scope.
Notation "c ;;; k" := (bindR c (fun _ => k))
  (at level 61, right associativity) : result_scope.

(** [ICHECK(cond) << msg] *)
Definition ICHECK (cond : bool) (msg : string) : Result unit :=
  if cond then Ok tt else Abort (ICheckFailed msg).

(** [ICHECK(p)] on a pointer obtained from [as<T>()]; the value is then
    used through the pointer. *)
Definition ICHECK_ptr {A : Type} (p : option A) (msg : string) : Result A :=
  match p with
  | Some a => Ok a
  | None => Abort (ICheckFailed msg)
  end.

(** [p->...] on a pointer that was not checked. *)
Definition deref {A : Type} (p : option A) : Result A :=
  match p with
  | Some a => Ok a
  | None => Abort NullPointer
  end.

(** [Array<T>::operator[]] is bounds checked. *)
Definition Array_at {A : Type} (a : list A) (i : nat) : Result A :=
  match nth_error a i with
  | Some x => Ok x
  | None => Abort IndexError
  end.

Section MapR.
Variables A B : Type.
Variable f : A -> Result B.

Fixpoint mapR (l : list A) : Result (list B) :=
  match l with
  | [] => Ok []
  | x :: rest => (y <- f x ;; ys <- mapR rest ;; Ok (y :: ys))%res
  end.

End MapR.

(* ================================================================== *)
(** ** Scalars, primitive expressions, types                          *)
(* ================================================================== *)

Inductive DLDataTypeCode : Type := kDLInt | kDLUInt | kDLFloat | kDLBfloat.

Record DataType : Type := mkDataType {
  dt_code : DLDataTypeCode;
  dt_bits : Z;
  dt_lanes : Z
}.

Definition Float32 : DataType := mkDataType kDLFloat 32 1.
Definition Float64 : DataType := mkDataType kDLFloat 64 1.
Definition Int32 : DataType := mkDataType kDLInt 32 1.

(** [PrimExpr]: the index expressions found in shapes and in the padding,
    strides and dilation attributes.  Only [IntImm] is a compile-time
    integer constant. *)
Inductive PrimExpr : Type :=
| IntImm (value : Z)
| SizeVar (name_hint : string)
| Any
| Add (a b : PrimExpr).

(** [dim.as<IntImmNode>()] *)
Definition as_IntImmNode (e : PrimExpr) : option Z :=
  match e with
  | IntImm v => Some v
  | _ => None
  end.

(** Modelled from the spec: [operator+] on [PrimExpr] is declared outside
    these sources; "combined padding = original convolution padding +
    extracted spatial pad amounts" adds integer constants as integers, and
    anything else stays a symbolic sum. *)
Definition PrimExpr_add (a b : PrimExpr) : PrimExpr :=
  match a, b with
  | IntImm x, IntImm y => IntImm (x + y)
  | _, _ => Add a b
  end.

Inductive Ty : Type :=
| TensorType (shape : list PrimExpr) (dtype : DataType)
| TupleType (fields : list Ty)
| FuncType (arg_types : list Ty) (ret_type : Ty).

(** [type.as<TensorTypeNode>()], also on an undefined type. *)
Definition as_TensorTypeNode (t : option Ty) : option (list PrimExpr * DataType) :=
  match t with
  | Some (TensorType shape dtype) => Some (shape, dtype)
  | _ => None
  end.

Definition Span : Type := option string.

(* ================================================================== *)
(** ** Attributes                                                     *)
(* ================================================================== *)

(** Attribute values that can be compared by a pattern. *)
Inductive ObjectRef : Type :=
| Integer (v : Z)
| StringObj (s : string).

(** The fields [MakeConvAttrs] copies; [Conv1DAttrs], [Conv2DAttrs] and
    [Conv3DAttrs] all carry them, and the template parameter [T] of
    [MakeConvAttrs] and [GetAttrs] ranges over the three. *)
Record ConvAttrs : Type := mkConvAttrs {
  strides : list PrimExpr;
  padding : list PrimExpr;
  dilation : list PrimExpr;
  groups : Z;
  channels : option PrimExpr;
  kernel_size : option (list PrimExpr);
  data_layout : string;
  kernel_layout : string;
  out_layout : string;
  out_dtype : DataType
}.

Inductive ConvKind : Type := Conv1D | Conv2D | Conv3D.

(** The fields of [PadAttrs] the callback reads: [pad_value] is a double,
    [pad_width] one row of integers per dimension. *)
Record PadAttrs : Type := mkPadAttrs {
  pad_value : spec_float;
  pad_width : list (list Z);
  pad_mode : string
}.

Record ReshapeAttrs : Type := mkReshapeAttrs {
  newshape : list Z
}.

Record InitOpAttrs : Type := mkInitOpAttrs {
  init_shape : option (list Z);
  init_dtype : DataType
}.

Inductive Attrs : Type :=
| NullAttrs                                     (* [Attrs()], not defined *)
| ConvAttrsOf (T : ConvKind) (a : ConvAttrs)
| PadAttrsOf (p : PadAttrs)
| ReshapeAttrsOf (r : ReshapeAttrs)
| InitOpAttrsOf (i : InitOpAttrs)
| DictAttrs (dict : list (string * ObjectRef)).

Definition defined (a : Attrs) : bool :=
  match a with
  | NullAttrs => false
  | _ => true
  end.

Definition ConvKind_eqb (a b : ConvKind) : bool :=
  match a, b with
  | Conv1D, Conv1D | Conv2D, Conv2D | Conv3D, Conv3D => true
  | _, _ => false
  end.

(** [attrs.as<T>()] for [T] one of the three convolution attribute types *)
Definition as_ConvAttrs (T : ConvKind) (a : Attrs) : option ConvAttrs :=
  match a with
  | ConvAttrsOf T' c => if ConvKind_eqb T T' then Some c else None
  | _ => None
  end.

(** [attrs.as<PadAttrs>()] *)
Definition as_PadAttrs (a : Attrs) : option PadAttrs :=
  match a with
  | PadAttrsOf p => Some p
  | _ => None
  end.

(* ================================================================== *)
(** ** Expressions                                                    *)
(* ================================================================== *)

(** The array of a constant: element type, shape and elements.  The
    rules only ask whether it has dimensions, and only build the scalars
    0 and 1, so the elements are kept as integers. *)
Record NDArray : Type := mkNDArray {
  nd_dtype : DataType;
  nd_shape : list Z;
  nd_data : list Z
}.

(** Relay expressions.  The classes are declared in [tvm/relay/expr.h],
    outside these sources: the node kinds are those of the data model
    (variable, constant, operator, call, tuple, tuple projection) and the
    function the pass is applied to, with the fields the rules read.
    Every node but an operator carries the [checked_type_] field that type
    inference fills in; it is [None] on a node built after inference
    ran. *)
Inductive Expr : Type :=
| Var (name_hint : string) (checked_type_ : option Ty)
| Constant (data : NDArray) (checked_type_ : option Ty)
| Op (name : string)
| Call (op : Expr) (args : list Expr) (attrs : Attrs) (type_args : list Ty)
       (span : Span) (checked_type_ : option Ty)
| Tuple (fields : list Expr) (checked_type_ : option Ty)
| TupleGetItem (tuple : Expr) (index : Z) (checked_type_ : option Ty)
| Function (params : list Expr) (body : Expr) (checked_type_ : option Ty).

Record CallNode : Type := mkCallNode {
  cn_op : Expr;
  cn_args : list Expr;
  cn_attrs : Attrs;
  cn_type_args : list Ty;
  cn_span : Span
}.

(** [e.as<CallNode>()] *)
Definition as_CallNode (e : Expr) : option CallNode :=
  match e with
  | Call op args attrs type_args span _ => Some (mkCallNode op args attrs type_args span)
  | _ => None
  end.

(** [e->checked_type_], the raw field *)
Definition get_checked_type_ (e : Expr) : option Ty :=
  match e with
  | Var _ t | Constant _ t | Call _ _ _ _ _ t | Tuple _ t
  | TupleGetItem _ _ t | Function _ _ t => t
  | Op _ => None
  end.

(** [e->checked_type()], which checks that the field is populated *)
Definition checked_type (e : Expr) : Result Ty :=
  ICHECK_ptr (get_checked_type_ e)
    "internal error: the type checker has not populated the checked_type field".

(** [Downcast<TensorType>(t)] *)
Definition Downcast_TensorType (t : Ty) : Result (list PrimExpr * DataType) :=
  ICHECK_ptr (as_TensorTypeNode (Some t)) "Downcast to TensorType failed".

(** The constructor [Call(op, args, attrs, type_args, span)]: a new node,
    not yet typed. *)
Definition Call_ (op : Expr) (args : list Expr) (attrs : Attrs)
    (type_args : list Ty) (span : Span) : Expr :=
  Call op args attrs type_args span None.

(* ================================================================== *)
(** ** Equality of objects                                            *)
(* ================================================================== *)

(** Nodes are immutable and the embedding is a tree, so a value stands for
    the object itself: [a == b] on references ([same_as]) and
    [StructuralEqual] are both decided by comparing the values. *)

Definition dec2bool {P : Prop} (d : {P} + {~ P}) : bool :=
  if d then true else false.

Definition option_eq_dec {A : Type} (dec : forall a b : A, {a = b} + {a <> b})
    (x y : option A) : {x = y} + {x <> y}.
Proof. decide equality. Defined.

Definition DataType_eq_dec (a b : DataType) : {a = b} + {a <> b}.
Proof. decide equality; try apply Z.eq_dec. decide equality. Defined.

Definition PrimExpr_eq_dec (a b : PrimExpr) : {a = b} + {a <> b}.
Proof. decide equality; try apply Z.eq_dec; apply string_dec. Defined.

Definition spec_float_eq_dec (a b : spec_float) : {a = b} + {a <> b}.
Proof.
  decide equality; try apply Bool.bool_dec; try apply Z.eq_dec; apply Pos.eq_dec.
Defined.

Definition ObjectRef_eq_dec (a b : ObjectRef) : {a = b} + {a <> b}.
Proof. decide equality; try apply Z.eq_dec; apply string_dec. Defined.

Definition NDArray_eq_dec (a b : NDArray) : {a = b} + {a <> b}.
Proof.
  decide equality; try apply (list_eq_dec Z.eq_dec); apply DataType_eq_dec.
Defined.

Definition Attrs_eq_dec (a b : Attrs) : {a = b} + {a <> b}.
Proof.
  decide equality.
  - decide equality; try apply DataType_eq_dec; try apply string_dec;
      try apply Z.eq_dec; try apply (list_eq_dec PrimExpr_eq_dec);
      try apply (option_eq_dec PrimExpr_eq_dec);
      apply (option_eq_dec (list_eq_dec PrimExpr_eq_dec)).
  - decide equality.
  - decide equality; try apply string_dec; try apply spec_float_eq_dec;
      apply (list_eq_dec (list_eq_dec Z.eq_dec)).
  - decide equality; apply (list_eq_dec Z.eq_dec).
  - decide equality; try apply DataType_eq_dec;
      apply (option_eq_dec (list_eq_dec Z.eq_dec)).
  - apply list_eq_dec. decide equality; try apply ObjectRef_eq_dec; apply string_dec.
Defined.

Section ListEqb.
Variable A : Type.
Variable eqb : A -> A -> bool.

Fixpoint list_eqb (l l' : list A) : bool :=
  match l, l' with
  | [], [] => true
  | x :: r, y :: r' => eqb x y && list_eqb r r'
  | _, _ => false
  end.

End ListEqb.

Definition option_eqb {A : Type} (eqb : A -> A -> bool) (x y : option A) : bool :=
  match x, y with
  | Some a, Some b => eqb a b
  | None, None => true
  | _, _ => false
  end.

Fixpoint Ty_eqb (a b : Ty) : bool :=
  match a, b with
  | TensorType s d, TensorType s' d' =>
      dec2bool (list_eq_dec PrimExpr_eq_dec s s') && dec2bool (DataType_eq_dec d d')
  | TupleType fs, TupleType fs' => list_eqb Ty_eqb fs fs'
  | FuncType xs r, FuncType xs' r' => list_eqb Ty_eqb xs xs' && Ty_eqb r r'
  | _, _ => false
  end.

(** [StructuralEqual()(t1, t2)] on two types, either of which may be
    undefined. *)
Definition StructuralEqual (t1 t2 : option Ty) : bool := option_eqb Ty_eqb t1 t2.

Definition Span_eqb (a b : Span) : bool := dec2bool (option_eq_dec string_dec a b).

Fixpoint same_as (a b : Expr) : bool :=
  match a, b with
  | Var n t, Var n' t' => String.eqb n n' && StructuralEqual t t'
  | Constant d t, Constant d' t' => dec2bool (NDArray_eq_dec d d') && StructuralEqual t t'
  | Op n, Op n' => String.eqb n n'
  | Call o xs at_ ta sp t, Call o' xs' at_' ta' sp' t' =>
      same_as o o' && list_eqb same_as xs xs' && dec2bool (Attrs_eq_dec at_ at_')
      && list_eqb Ty_eqb ta ta' && Span_eqb sp sp' && StructuralEqual t t'
  | Tuple fs t, Tuple fs' t' => list_eqb same_as fs fs' && StructuralEqual t t'
  | TupleGetItem e i t, TupleGetItem e' i' t' =>
      same_as e e' && Z.eqb i i' && StructuralEqual t t'
  | Function ps b t, Function ps' b' t' =>
      list_eqb same_as ps ps' && same_as b b' && StructuralEqual t t'
  | _, _ => false
  end.

(* ================================================================== *)
(** ** Patterns                                                       *)
(* ================================================================== *)

(** Modelled from the spec: the pattern classes live in
    [dataflow_pattern.h], outside these sources.  The variants are those of
    the spec's data model and their fields are the ones read by
    [tests/cpp/dataflow_pattern_test.cc] ([name], [expr], [op], [args],
    [fields], [tuple], [index], [left], [right]).  [id] is the identity of
    the pattern object: two patterns of the same shape are different keys
    of a [Map<DFPattern, Array<Expr>>] unless they are the same allocation. *)
Inductive DFPattern : Type :=
| WildcardPattern (id : nat)
| VarPattern (id : nat) (name : option string)
| ConstantPattern (id : nat)
| ExprPattern (id : nat) (expr : Expr)
| CallPattern (id : nat) (op : DFPattern) (args : list DFPattern)
| TuplePattern (id : nat) (fields : list DFPattern)
| TupleGetItemPattern (id : nat) (tuple : DFPattern) (index : Z)
| AttrPattern (id : nat) (pattern : DFPattern) (attrs : list (string * ObjectRef))
| AltPattern (id : nat) (left right : DFPattern).

Definition pattern_id (p : DFPattern) : nat :=
  match p with
  | WildcardPattern id | VarPattern id _ | ConstantPattern id | ExprPattern id _
  | CallPattern id _ _ | TuplePattern id _ | TupleGetItemPattern id _ _
  | AttrPattern id _ _ | AltPattern id _ _ => id
  end.

(** Allocation of pattern objects: a computation that draws fresh
    identities from a counter. *)
Definition Alloc (A : Type) : Type := nat -> A * nat.

Definition retA {A : Type} (a : A) : Alloc A := fun n => (a, n).

Definition bindA {A B : Type} (c : Alloc A) (k : A -> Alloc B) : Alloc B :=
  fun n => let (a, n') := c n in k a n'.

Declare Scope alloc_scope.
Delimit Scope alloc_scope with alloc.
Notation "x <- c ;; k" := (bindA c (fun x => k))
  (at level 61, c at next level, right associativity) : alloc_scope.

Definition fresh : Alloc nat := fun n => (n, S n).

(** [Op::Get(name)]: the operator registered under [name] *)
Definition Op_Get (name : string) : Expr := Op name.

(** Modelled from the spec: the pattern constructors [IsWildcard],
    [IsVar], [IsConstant], [IsExpr], [IsOp], [IsTuple] and
    [IsTupleGetItem] are defined with the pattern classes, outside these
    sources.  Each allocates one node of the variant it names; [IsOp]
    is "the operator-reference" to [Op::Get(name)], as
    [TEST(DFPattern, IsOp)] checks. *)
Definition IsWildcard : Alloc DFPattern :=
  (id <- fresh ;; retA (WildcardPattern id))%alloc.

Definition IsVar (name : string) : Alloc DFPattern :=
  (id <- fresh ;; retA (VarPattern id (Some name)))%alloc.

Definition IsConstant : Alloc DFPattern :=
  (id <- fresh ;; retA (ConstantPattern id))%alloc.

Definition IsExpr (e : Expr) : Alloc DFPattern :=
  (id <- fresh ;; retA (ExprPattern id e))%alloc.

Definition IsOp (op_name : string) : Alloc DFPattern := IsExpr (Op_Get op_name).

Definition IsTuple (fields : list DFPattern) : Alloc DFPattern :=
  (id <- fresh ;; retA (TuplePattern id fields))%alloc.

Definition IsTupleGetItem (tuple : DFPattern) (index : Z) : Alloc DFPattern :=
  (id <- fresh ;; retA (TupleGetItemPattern id tuple index))%alloc.

(** Modelled from the spec: [DFPattern::operator()(args)], outside these
    sources, is the call pattern with this pattern as operator. *)
Definition DFPattern_call (op : DFPattern) (args : list DFPattern) : Alloc DFPattern :=
  (id <- fresh ;; retA (CallPattern id op args))%alloc.

(** Modelled from the spec: [DFPattern::HasAttr(attrs)], outside these
    sources, is the attribute guard over this pattern. *)
Definition HasAttr (p : DFPattern) (attrs : list (string * ObjectRef)) : Alloc DFPattern :=
  (id <- fresh ;; retA (AttrPattern id p attrs))%alloc.

(** Modelled from the spec: [DFPattern::operator||], outside these
    sources, is the alternation of its two operands, left first. *)
Definition DFPattern_or (a b : DFPattern) : Alloc DFPattern :=
  (id <- fresh ;; retA (AltPattern id a b))%alloc.

(** Modelled from the spec: the sugar for the four binary operators is
    defined with the pattern classes, outside these sources; it is "built
    from [Call] + [ExprRef]". *)
Definition DFPattern_binop (op_name : string) (a b : DFPattern) : Alloc DFPattern :=
  (op <- IsOp op_name ;; DFPattern_call op [a; b])%alloc.

Definition DFPattern_add : DFPattern -> DFPattern -> Alloc DFPattern := DFPattern_binop "add".
Definition DFPattern_sub : DFPattern -> DFPattern -> Alloc DFPattern := DFPattern_binop "subtract".
Definition DFPattern_mul : DFPattern -> DFPattern -> Alloc DFPattern := DFPattern_binop "multiply".
Definition DFPattern_div : DFPattern -> DFPattern -> Alloc DFPattern := DFPattern_binop "divide".

(** [pattern.as<CallPatternNode>()] and its siblings, as the tests use them *)
Definition as_CallPatternNode (p : DFPattern) : option (DFPattern * list DFPattern) :=
  match p with
  | CallPattern _ op args => Some (op, args)
  | _ => None
  end.

Definition as_ExprPatternNode (p : DFPattern) : option Expr :=
  match p with
  | ExprPattern _ e => Some e
  | _ => None
  end.

Definition as_AltPatternNode (p : DFPattern) : option (DFPattern * DFPattern) :=
  match p with
  | AltPattern _ l r => Some (l, r)
  | _ => None
  end.

(* ================================================================== *)
(** ** The binding map                                                *)
(* ================================================================== *)

(** [Map<DFPattern, Array<Expr>>]: keyed by pattern identity, each key
    mapped to the nodes matched at that pattern, in order of discovery. *)
Definition NodeMap : Type := list (nat * list Expr).

Fixpoint NodeMap_find (m : NodeMap) (k : nat) : option (list Expr) :=
  match m with
  | [] => None
  | (k', v) :: rest => if Nat.eqb k k' then Some v else NodeMap_find rest k
  end.

(** [node_map.count(p)] *)
Definition Map_count (m : NodeMap) (p : DFPattern) : bool :=
  match NodeMap_find m (pattern_id p) with
  | Some _ => true
  | None => false
  end.

(** [node_map[p]], which fails on a key that is not in the map *)
Definition Map_at (m : NodeMap) (p : DFPattern) : Result (list Expr) :=
  match NodeMap_find m (pattern_id p) with
  | Some v => Ok v
  | None => Abort IndexError
  end.

(** Record one more node matched at the pattern [k]. *)
Fixpoint NodeMap_push (m : NodeMap) (k : nat) (e : Expr) : NodeMap :=
  match m with
  | [] => [(k, [e])]
  | (k', v) :: rest =>
      if Nat.eqb k k' then (k', v ++ [e]) :: rest else (k', v) :: NodeMap_push rest k e
  end.

(* ================================================================== *)
(** ** The matcher                                                    *)
(* ================================================================== *)

(** The attribute bag of a call's attribute object, by field name. *)
Definition Attrs_get (a : Attrs) (key : string) : option ObjectRef :=
  match a with
  | DictAttrs dict =>
      match find (fun kv => String.eqb (fst kv) key) dict with
      | Some kv => Some (snd kv)
      | None => None
      end
  | ConvAttrsOf _ c =>
      if String.eqb key "groups" then Some (Integer (groups c))
      else if String.eqb key "data_layout" then Some (StringObj (data_layout c))
      else if String.eqb key "kernel_layout" then Some (StringObj (kernel_layout c))
      else if String.eqb key "out_layout" then Some (StringObj (out_layout c))
      else None
  | PadAttrsOf p =>
      if String.eqb key "pad_mode" then Some (StringObj (pad_mode p)) else None
  | _ => None
  end.

Section Matcher.

(** The operator catalog is outside the engine: an operator is an opaque
    name, and the attributes registered for it ([TOpPattern] and the like)
    are read through this lookup. *)
Variable op_attr_map : string -> string -> option ObjectRef.

Definition attr_bag (e : Expr) (key : string) : option ObjectRef :=
  match e with
  | Op name => op_attr_map name key
  | Call _ _ attrs _ _ _ => Attrs_get attrs key
  | _ => None
  end.

Definition has_attrs (e : Expr) (required : list (string * ObjectRef)) : bool :=
  forallb (fun kv =>
             match attr_bag e (fst kv) with
             | Some v => dec2bool (ObjectRef_eq_dec v (snd kv))
             | None => false
             end) required.

(** Modelled from the spec: the matcher ([dataflow_matcher.cc]) is outside
    these sources.  [Match pattern node memo] follows the spec's recursive
    algorithm: a wildcard always succeeds; [Var], [Constant] and [ExprRef]
    succeed on the node's kind or identity; [Call] needs a call whose
    operator matches and whose arguments match pairwise and in count;
    [Tuple] and [TupleGetItem] are positional; [Attr] needs the inner
    pattern and then every required attribute; [Alt] tries left, then
    right.  Every pattern that matched records its node in the binding
    map; a failure is [None], and whatever was bound before it is
    dropped. *)
Fixpoint Match (p : DFPattern) (e : Expr) (memo : NodeMap) {struct p} : option NodeMap :=
  match p with
  | WildcardPattern id => Some (NodeMap_push memo id e)
  | VarPattern id name =>
      match e with
      | Var n _ =>
          match name with
          | None => Some (NodeMap_push memo id e)
          | Some s => if String.eqb s n then Some (NodeMap_push memo id e) else None
          end
      | _ => None
      end
  | ConstantPattern id =>
      match e with
      | Constant _ _ => Some (NodeMap_push memo id e)
      | _ => None
      end
  | ExprPattern id expr =>
      if same_as expr e then Some (NodeMap_push memo id e) else None
  | CallPattern id op args =>
      match e with
      | Call eop eargs _ _ _ _ =>
          match Match op eop memo with
          | Some m1 =>
              match
                (fix Match_args (ps : list DFPattern) (es : list Expr) (m : NodeMap)
                   {struct ps} : option NodeMap :=
                   match ps, es with
                   | [], [] => Some m
                   | p' :: ps', e' :: es' =>
                       match Match p' e' m with
                       | Some m' => Match_args ps' es' m'
                       | None => None
                       end
                   | _, _ => None
                   end) args eargs m1
              with
              | Some m2 => Some (NodeMap_push m2 id e)
              | None => None
              end
          | None => None
          end
      | _ => None
      end
  | TuplePattern id fields =>
      match e with
      | Tuple efields _ =>
          match
            (fix Match_fields (ps : list DFPattern) (es : list Expr) (m : NodeMap)
               {struct ps} : option NodeMap :=
               match ps, es with
               | [], [] => Some m
               | p' :: ps', e' :: es' =>
                   match Match p' e' m with
                   | Some m' => Match_fields ps' es' m'
                   | None => None
                   end
               | _, _ => None
               end) fields efields memo
          with
          | Some m1 => Some (NodeMap_push m1 id e)
          | None => None
          end
      | _ => None
      end
  | TupleGetItemPattern id tuple index =>
      match e with
      | TupleGetItem etuple eindex _ =>
          if Z.eqb index eindex then
            match Match tuple etuple memo with
            | Some m1 => Some (NodeMap_push m1 id e)
            | None => None
            end
          else None
      | _ => None
      end
  | AttrPattern id inner required =>
      match Match inner e memo with
      | Some m1 => if has_attrs e required then Some (NodeMap_push m1 id e) else None
      | None => None
      end
  | AltPattern id l r =>
      match Match l e memo with
      | Some m1 => Some (NodeMap_push m1 id e)
      | None =>
          match Match r e memo with
          | Some m2 => Some (NodeMap_push m2 id e)
          | None => None
          end
      end
  end.

(* ================================================================== *)
(** ** Rules and the rewriter                                         *)
(* ================================================================== *)

(** [DFPatternCallback(pattern, function, require_type)] *)
Record DFPatternCallback : Type := mkDFPatternCallback {
  cb_pattern : DFPattern;
  cb_function : Expr -> Expr -> NodeMap -> Result Expr;
  cb_require_type : bool
}.

(** Modelled from the spec: steps 3 and 4 of the rewrite driver.  The
    rules are tried in registry order on the current candidate; a rule
    that matches is called with the original node, the candidate and the
    bindings, and what it returns is the candidate for the rules after
    it. *)
Fixpoint apply_rules (callbacks : list DFPatternCallback) (pre cand : Expr) : Result Expr :=
  match callbacks with
  | [] => Ok cand
  | cb :: rest =>
      match Match (cb_pattern cb) cand [] with
      | Some node_map =>
          (cand' <- cb_function cb pre cand node_map ;; apply_rules rest pre cand')%res
      | None => apply_rules rest pre cand
      end
  end.

(** Modelled from the spec: the rewrite driver ([RewritePatterns]) is
    outside these sources.  One bottom-up traversal: the children are
    rewritten first, the node is rebuilt over them (it is the node itself
    when no child changed, a new untyped node otherwise), and the rules are
    applied to it.  The memo table keyed by node identity is the function
    itself here: equal nodes have equal rewrites. *)
Fixpoint Rewrite (callbacks : list DFPatternCallback) (e : Expr) : Result Expr :=
  match e with
  | Var _ _ | Constant _ _ | Op _ => apply_rules callbacks e e
  | Call op args attrs type_args span _ =>
      (op' <- Rewrite callbacks op ;;
       args' <- mapR (Rewrite callbacks) args ;;
       let post := if same_as op op' && list_eqb same_as args args'
                   then e else Call_ op' args' attrs type_args span in
       apply_rules callbacks e post)%res
  | Tuple fields _ =>
      (fields' <- mapR (Rewrite callbacks) fields ;;
       let post := if list_eqb same_as fields fields' then e else Tuple fields' None in
       apply_rules callbacks e post)%res
  | TupleGetItem tuple index _ =>
      (tuple' <- Rewrite callbacks tuple ;;
       let post := if same_as tuple tuple' then e else TupleGetItem tuple' index None in
       apply_rules callbacks e post)%res
  | Function params body _ =>
      (body' <- Rewrite callbacks body ;;
       let post := if same_as body body' then e else Function params body' None in
       apply_rules callbacks e post)%res
  end.

End Matcher.

(* ================================================================== *)
(** ** [class SimplifyPattern]                                        *)
(* ================================================================== *)

(** The abstract base class: a rule has a pattern and a callback. *)
Class SimplifyPattern (T : Type) : Type := {
  callback : T -> Expr -> Expr -> NodeMap -> Result Expr;
  pattern : T -> DFPattern
}.

(* ================================================================== *)
(** ** [class SimplifyReshape]                                        *)
(* ================================================================== *)

(** Modelled from the spec: [MakeReshape] is declared in
    [../op/tensor/transform.h], outside these sources; it builds "a single
    reshape of the innermost operand directly to that final shape". *)
Definition MakeReshape (data : Expr) (newshape : list Z) : Expr :=
  Call_ (Op_Get "reshape") [data] (ReshapeAttrsOf (mkReshapeAttrs newshape)) [] None.

Module SimplifyReshape.

Record t : Type := mk {
  pattern_ : DFPattern;
  x_ : DFPattern
}.

(** The constructor [SimplifyReshape()] *)
Definition new : Alloc t :=
  (x_ <- IsWildcard ;;
   r1a <- IsOp "reshape" ;;
   r1b <- IsOp "contrib_reverse_reshape" ;;
   reshape1 <- DFPattern_or r1a r1b ;;
   r2a <- IsOp "reshape" ;;
   r2b <- IsOp "contrib_reverse_reshape" ;;
   reshape2 <- DFPattern_or r2a r2b ;;
   inner <- DFPattern_call reshape2 [x_] ;;
   pattern_ <- DFPattern_call reshape1 [inner] ;;
   retA (mk pattern_ x_))%alloc.

(** The loop of the callback: [(const_shape, newshape)] after the loop,
    which stops at the first dimension that is not an [IntImm]. *)
Fixpoint collect_newshape (shape : list PrimExpr) (newshape : list Z) : bool * list Z :=
  match shape with
  | [] => (true, newshape)
  | dim :: rest =>
      match as_IntImmNode dim with
      | None => (false, newshape)
      | Some v => collect_newshape rest (newshape ++ [v])
      end
  end.

Definition callback (self : t) (pre post : Expr) (node_map : NodeMap) : Result Expr :=
  (xs <- Map_at node_map (x_ self) ;;
   x <- Array_at xs 0 ;;
   ty <- checked_type pre ;;
   tt <- Downcast_TensorType ty ;;
   let (const_shape, newshape) := collect_newshape (fst tt) [] in
   if const_shape then Ok (MakeReshape x newshape) else Ok post)%res.

#[global] Instance rule : SimplifyPattern t := {
  callback := callback;
  pattern := pattern_
}.

End SimplifyReshape.

(* ================================================================== *)
(** ** [class SimplifyConvPad]                                        *)
(* ================================================================== *)

Module SimplifyConvPad.

Record t : Type := mk {
  pattern_ : DFPattern;
  x_ : DFPattern;
  w_ : DFPattern;
  pad_ : DFPattern;
  conv_ : DFPattern;
  conv1d_ : DFPattern;
  conv2d_ : DFPattern;
  conv3d_ : DFPattern
}.

(** The constructor [SimplifyConvPad()] *)
Definition new : Alloc t :=
  (x_ <- IsWildcard ;;
   w_ <- IsWildcard ;;
   pad_op <- IsOp "nn.pad" ;;
   pad_ <- DFPattern_call pad_op [x_] ;;
   conv1d_ <- IsOp "nn.conv1d" ;;
   conv2d_ <- IsOp "nn.conv2d" ;;
   conv3d_ <- IsOp "nn.conv3d" ;;
   c12 <- DFPattern_or conv1d_ conv2d_ ;;
   c123 <- DFPattern_or c12 conv3d_ ;;
   conv_ <- DFPattern_call c123 [pad_; w_] ;;
   retA (mk conv_ x_ w_ pad_ conv_ conv1d_ conv2d_ conv3d_))%alloc.

(** The loop that builds [combined_padding] *)
Definition combine_padding (padding old_padding : list PrimExpr) : Result (list PrimExpr) :=
  mapR (fun i =>
          (a <- Array_at padding i ;;
           b <- Array_at old_padding i ;;
           Ok (PrimExpr_add a b))%res)
       (seq 0 (List.length padding)).

Definition MakeConvAttrs (T : ConvKind) (old_attrs : option ConvAttrs)
    (padding_ : list PrimExpr) : Result Attrs :=
  (old <- ICHECK_ptr old_attrs "old_attrs" ;;
   ICHECK (Nat.eqb (List.length padding_) (List.length (padding old)))
     "Number of dimensions to pad and convolution padding attributes should have the same extent" ;;;
   combined_padding <- combine_padding padding_ (padding old) ;;
   Ok (ConvAttrsOf T
         {| strides := strides old;
            padding := combined_padding;
            dilation := dilation old;
            groups := groups old;
            channels := channels old;
            kernel_size := kernel_size old;
            data_layout := data_layout old;
            kernel_layout := kernel_layout old;
            out_layout := out_layout old;
            out_dtype := out_dtype old |}))%res.

(** [image_dims.count(data_layout[i])] with [image_dims = {'H', 'W', 'D'}] *)
Definition image_dims_count (data_layout : string) (i : nat) : bool :=
  match String.get i data_layout with
  | Some c => Ascii.eqb c "H" || Ascii.eqb c "W" || Ascii.eqb c "D"
  | None => false
  end.

(** First loop of [GetAttrs]: is some entry of [pad_width] non-zero on a
    dimension that is not an image dimension? *)
Definition pads_non_spatial (data_layout : string) (pad_width : list (list Z)) : bool :=
  existsb (fun i =>
             negb (image_dims_count data_layout i)
             && existsb (fun v => negb (Z.eqb v 0)) (nth i pad_width []))
          (seq 0 (List.length pad_width)).

(** Second loop of [GetAttrs]: for each column [j], the entries of the
    image dimensions, in layout order. *)
Definition spatial_padding (data_layout : string) (pad_width : list (list Z))
    : Result (list PrimExpr) :=
  (row0 <- Array_at pad_width 0 ;;
   columns <-
     mapR (fun j =>
             (picked <-
                mapR (fun i =>
                        if image_dims_count data_layout i then
                          (row <- Array_at pad_width i ;;
                           v <- Array_at row j ;;
                           Ok [IntImm v])
                        else Ok [])
                     (seq 0 (List.length pad_width)) ;;
              Ok (List.concat picked))%res)
          (seq 0 (List.length row0)) ;;
   Ok (List.concat columns))%res.

Definition GetAttrs (T : ConvKind) (param : option PadAttrs) (attrs : option ConvAttrs)
    : Result Attrs :=
  (param <- ICHECK_ptr param "param" ;;
   attrs <- ICHECK_ptr attrs "attrs" ;;
   ICHECK (Nat.eqb (String.length (data_layout attrs)) (List.length (pad_width param)))
     "Data Layout and padding attributes should have the same extent" ;;;
   let data_layout := data_layout attrs in
   if pads_non_spatial data_layout (pad_width param) then Ok NullAttrs
   else
     (padding <- spatial_padding data_layout (pad_width param) ;;
      MakeConvAttrs T (Some attrs) padding))%res.

Definition callback (self : t) (pre post : Expr) (node_map : NodeMap) : Result Expr :=
  (call_node <- ICHECK_ptr (as_CallNode post) "call_node" ;;
   pads <- Map_at node_map (pad_ self) ;;
   pad <- Array_at pads 0 ;;
   pad_node <- ICHECK_ptr (as_CallNode pad) "pad_node" ;;
   param <- ICHECK_ptr (as_PadAttrs (cn_attrs pad_node)) "param" ;;
   if String.eqb (pad_mode param) "constant" && SFeqb (pad_value param) (S754_zero false)
   then
     (selected <-
        (if Map_count node_map (conv1d_ self) then
           (a <- GetAttrs Conv1D (Some param) (as_ConvAttrs Conv1D (cn_attrs call_node)) ;;
            Ok (Some a))
         else if Map_count node_map (conv2d_ self) then
           (a <- GetAttrs Conv2D (Some param) (as_ConvAttrs Conv2D (cn_attrs call_node)) ;;
            Ok (Some a))
         else if Map_count node_map (conv3d_ self) then
           (a <- GetAttrs Conv3D (Some param) (as_ConvAttrs Conv3D (cn_attrs call_node)) ;;
            Ok (Some a))
         else Ok None) ;;
      match selected with
      | None => Ok post
      | Some attrs =>
          if negb (defined attrs) then Ok post
          else
            (xs <- Map_at node_map (x_ self) ;;
             x <- Array_at xs 0 ;;
             ws <- Map_at node_map (w_ self) ;;
             w <- Array_at ws 0 ;;
             Ok (Call_ (cn_op call_node) [x; w] attrs (cn_type_args call_node)
                   (cn_span call_node)))
      end)
   else Ok post)%res.

#[global] Instance rule : SimplifyPattern t := {
  callback := callback;
  pattern := pattern_
}.

End SimplifyConvPad.

(* ================================================================== *)
(** ** [class FullElementwise]                                        *)
(* ================================================================== *)

(** Modelled from the spec: the value of [kBroadcast] comes from the
    operator catalog, outside these sources; it is the [TOpPattern] that
    marks "a broadcasting binary op". *)
Definition kBroadcast : Z := 1.

(** Modelled from the spec: [IsConstScalar] is declared in
    [pattern_utils.h], outside these sources; "a true scalar constant" is
    a constant node whose array has no dimension. *)
Definition IsConstScalar (e : Expr) : bool :=
  match e with
  | Constant data _ =>
      match nd_shape data with
      | [] => true
      | _ => false
      end
  | _ => false
  end.

(** Modelled from the spec: [MakeConstantScalar] is declared in
    [pattern_utils.h], outside these sources; it builds "a literal scalar
    constant" of the given value and dtype. *)
Definition MakeConstantScalar (dtype : DataType) (value : Z) : Expr :=
  Constant (mkNDArray dtype [] [value]) None.

Module FullElementwise.

Record t : Type := mk {
  pattern_ : DFPattern;
  x_ : DFPattern;
  data_ : DFPattern;
  value_ : DFPattern;
  full_ : DFPattern;
  ones_ : DFPattern;
  zeros_ : DFPattern
}.

(** The constructor [FullElementwise()] *)
Definition new : Alloc t :=
  (x_ <- IsWildcard ;;
   data_ <- IsWildcard ;;
   value_ <- IsConstant ;;
   full_op <- IsOp "full" ;;
   full_call <- DFPattern_call full_op [value_] ;;
   full_like_op <- IsOp "full_like" ;;
   full_like_call <- DFPattern_call full_like_op [data_; value_] ;;
   full_ <- DFPattern_or full_call full_like_call ;;
   ones_op <- IsOp "ones" ;;
   ones_call <- DFPattern_call ones_op [] ;;
   ones_like_op <- IsOp "ones_like" ;;
   ones_like_call <- DFPattern_call ones_like_op [data_] ;;
   ones_ <- DFPattern_or ones_call ones_like_call ;;
   zeros_op <- IsOp "zeros" ;;
   zeros_call <- DFPattern_call zeros_op [] ;;
   zeros_like_op <- IsOp "zeros_like" ;;
   zeros_like_call <- DFPattern_call zeros_like_op [data_] ;;
   zeros_ <- DFPattern_or zeros_call zeros_like_call ;;
   let attrs := [("TOpPattern", Integer kBroadcast)] in
   any_op <- IsWildcard ;;
   op <- HasAttr any_op attrs ;;
   full_or_ones <- DFPattern_or full_ ones_ ;;
   full <- DFPattern_or full_or_ones zeros_ ;;
   left <- DFPattern_call op [full; x_] ;;
   right <- DFPattern_call op [x_; full] ;;
   pattern_ <- DFPattern_or left right ;;
   retA (mk pattern_ x_ data_ value_ full_ ones_ zeros_))%alloc.

Definition callback (self : t) (pre post : Expr) (node_map : NodeMap) : Result Expr :=
  (call <- ICHECK_ptr (as_CallNode pre) "call" ;;
   let pre_type := get_checked_type_ pre in
   tensor <- ICHECK_ptr (as_TensorTypeNode pre_type) "pre_type.as<TensorTypeNode>()" ;;
   let dtype := snd tensor in
   xs <- Map_at node_map (x_ self) ;;
   x <- Array_at xs 0 ;;
   post_call <- deref (as_CallNode post) ;;
   post_arg1 <- Array_at (cn_args post_call) 1 ;;
   let is_left := same_as post_arg1 x in
   x_type <-
     (if is_left then
        (a <- Array_at (cn_args call) 1 ;; Ok (get_checked_type_ a))
      else
        (a <- Array_at (cn_args call) 0 ;; Ok (get_checked_type_ a))) ;;
   if StructuralEqual x_type pre_type then
     (value <-
        (if Map_count node_map (full_ self) then
           (vs <- Map_at node_map (value_ self) ;;
            value <- Array_at vs 0 ;;
            ICHECK (IsConstScalar value) "IsConstScalar(value)" ;;;
            Ok value)
         else if Map_count node_map (ones_ self) then
           Ok (MakeConstantScalar dtype 1)
         else if Map_count node_map (zeros_ self) then
           Ok (MakeConstantScalar dtype 0)
         else
           Abort (ICheckFailed "Didn't find a full op while matching full + elementwise")) ;;
      if is_left then
        Ok (Call_ (cn_op call) [value; x] (cn_attrs call) (cn_type_args call) (cn_span call))
      else
        Ok (Call_ (cn_op call) [x; value] (cn_attrs call) (cn_type_args call) (cn_span call)))
   else Ok post)%res.

#[global] Instance rule : SimplifyPattern t := {
  callback := callback;
  pattern := pattern_
}.

End FullElementwise.

(* ================================================================== *)
(** ** [class ExprSimplifier]                                         *)
(* ================================================================== *)

Record IRModule : Type := mkIRModule {
  functions : list (string * Expr)
}.

Record ExprSimplifier : Type := mkExprSimplifier {
  mod_ : IRModule;
  callbacks_ : list DFPatternCallback
}.

(** [CreateCallback(pattern)]: wrap the rule as a packed function and push
    it on [callbacks_]. *)
Definition CreateCallback {T : Type} `{SimplifyPattern T} (rule : T)
    (self : ExprSimplifier) : ExprSimplifier :=
  let func := fun (pre post : Expr) (node_map : NodeMap) => callback rule pre post node_map in
  {| mod_ := mod_ self;
     callbacks_ := callbacks_ self ++ [mkDFPatternCallback (pattern rule) func true] |}.

(** The constructor [ExprSimplifier(IRModule mod)] *)
Definition ExprSimplifier_new (m : IRModule) : Alloc ExprSimplifier :=
  (let self := {| mod_ := m; callbacks_ := [] |} in
   reshape <- SimplifyReshape.new ;;
   let self := CreateCallback reshape self in
   full <- FullElementwise.new ;;
   let self := CreateCallback full self in
   conv_pad <- SimplifyConvPad.new ;;
   let self := CreateCallback conv_pad self in
   retA self)%alloc.

(** A simplifier whose patterns are the first objects allocated. *)
Definition ExprSimplifier_of (m : IRModule) : ExprSimplifier :=
  fst (ExprSimplifier_new m 0).

Section Pass.

Variable op_attr_map : string -> string -> option ObjectRef.

(** Modelled from the spec: [RewritePatterns] is the entry point of the
    rewrite driver, outside these sources. *)
Definition RewritePatterns (callbacks : list DFPatternCallback) (expr : Expr)
    (m : IRModule) : Result Expr :=
  Rewrite op_attr_map callbacks expr.

(** [ExprSimplifier::Simplify] *)
Definition Simplify (self : ExprSimplifier) (expr : Expr) : Result Expr :=
  RewritePatterns (callbacks_ self) expr (mod_ self).

Definition SimplifyExpr (expr : Expr) (m : IRModule) : Result Expr :=
  Simplify (ExprSimplifier_of m) expr.

Record PassInfo : Type := mkPassInfo {
  opt_level : Z;
  name : string;
  required : list string
}.

Definition PassContext : Type := unit.

Inductive Pass : Type :=
| FunctionPass (pass_func : Expr -> IRModule -> PassContext -> Result Expr)
               (pass_info : PassInfo).

(** Modelled from the spec: [CreateFunctionPass] belongs to the pass
    infrastructure, outside these sources; it makes "a named optimization
    pass" over functions that declares the passes it requires. *)
Definition CreateFunctionPass (pass_func : Expr -> IRModule -> PassContext -> Result Expr)
    (opt_level : Z) (name : string) (required : list string) : Pass :=
  FunctionPass pass_func (mkPassInfo opt_level name required).

(** [Downcast<Function>(e)] *)
Definition Downcast_Function (e : Expr) : Result Expr :=
  match e with
  | Function _ _ _ => Ok e
  | _ => Abort (ICheckFailed "Downcast to Function failed")
  end.

End Pass.

Module transform.

Definition SimplifyExpr (op_attr_map : string -> string -> option ObjectRef) : Pass :=
  let pass_func := fun (f : Expr) (m : IRModule) (pc : PassContext) =>
    (r <- SimplifyExpr op_attr_map f m ;; Downcast_Function r)%res in
  CreateFunctionPass pass_func 0 "SimplifyExpr" ["InferType"].

End transform.

(* ================================================================== *)
(** ** The rule objects of a simplifier                               *)
(* ================================================================== *)

(** The three rule objects in the order [ExprSimplifier(mod)] constructs
    them, each allocating its patterns after the previous one. *)
Definition registered_SimplifyReshape : SimplifyReshape.t :=
  fst (SimplifyReshape.new 0).

Definition registered_FullElementwise : FullElementwise.t :=
  fst (FullElementwise.new (snd (SimplifyReshape.new 0))).

Definition registered_SimplifyConvPad : SimplifyConvPad.t :=
  fst (SimplifyConvPad.new (snd (FullElementwise.new (snd (SimplifyReshape.new 0))))).

Definition registry : list DFPatternCallback :=
  [ mkDFPatternCallback (pattern registered_SimplifyReshape)
      (callback registered_SimplifyReshape) true;
    mkDFPatternCallback (pattern registered_FullElementwise)
      (callback registered_FullElementwise) true;
    mkDFPatternCallback (pattern registered_SimplifyConvPad)
      (callback registered_SimplifyConvPad) true ].

Unset Implicit Arguments.

(* ================================================================== *)
(** ** Vocabulary of the statements                                   *)
(* ================================================================== *)

(** [p == q] on patterns compares the objects. *)
Definition DFPattern_same (p q : DFPattern) : bool :=
  Nat.eqb (pattern_id p) (pattern_id q).

(** The body shared by [TEST(DFPattern, ADD)], [SUB], [MUL] and [DIV] of
    [tests/cpp/dataflow_pattern_test.cc]: every [ICHECK] of the test as one
    conjunct. *)
Definition TEST_DFPattern_binop (sugar : DFPattern -> DFPattern -> Alloc DFPattern)
    (op_name : string) : Alloc bool :=
  (a <- IsWildcard ;;
   b <- IsWildcard ;;
   pattern <- sugar a b ;;
   retA match as_CallPatternNode pattern with
        | Some (op, [arg0; arg1]) =>
            DFPattern_same arg0 a && DFPattern_same arg1 b
            && match as_ExprPatternNode op with
               | Some e => same_as e (Op_Get op_name)
               | None => false
               end
        | _ => false
        end)%alloc.

(** [TEST(DFPattern, OR)] *)
Definition TEST_DFPattern_OR : Alloc bool :=
  (a <- IsWildcard ;;
   b <- IsWildcard ;;
   pattern <- DFPattern_or a b ;;
   retA match as_AltPatternNode pattern with
        | Some (l, r) => DFPattern_same l a && DFPattern_same r b
        | None => false
        end)%alloc.

(** [p] is a call pattern over the operator [op_name] with arguments
    [a; b]. *)
Definition is_binop_pattern (p : DFPattern) (op_name : string) (a b : DFPattern) : Prop :=
  exists op,
    as_CallPatternNode p = Some (op, [a; b])
    /\ as_ExprPatternNode op = Some (Op_Get op_name).

(** The operator whose calls carry the attributes [T]. *)
Definition conv_op_name (T : ConvKind) : string :=
  match T with
  | Conv1D => "nn.conv1d"
  | Conv2D => "nn.conv2d"
  | Conv3D => "nn.conv3d"
  end.

(** [pad_width] has a non-zero entry on a dimension whose layout
    character is none of 'H', 'W', 'D'. *)
Definition pads_outside_image_dims (layout : string) (pad_width : list (list Z)) : Prop :=
  exists i row v c,
    nth_error pad_width i = Some row /\ In v row /\ v <> 0%Z
    /\ String.get i layout = Some c
    /\ c <> "H"%char /\ c <> "W"%char /\ c <> "D"%char.

(** [padding[i] + old_attrs->padding[i]] on a pair of entries *)
Definition add_pair (ab : PrimExpr * PrimExpr) : PrimExpr :=
  PrimExpr_add (fst ab) (snd ab).

(** The attributes [c] with [padding] replaced. *)
Definition set_padding (c : ConvAttrs) (p : list PrimExpr) : ConvAttrs :=
  {| strides := strides c; padding := p; dilation := dilation c; groups := groups c;
     channels := channels c; kernel_size := kernel_size c; data_layout := data_layout c;
     kernel_layout := kernel_layout c; out_layout := out_layout c; out_dtype := out_dtype c |}.

(** Pairwise match of argument patterns against arguments: the inner
    loop of [Match] on a call pattern, as a function of its own. *)
Fixpoint Match_args (reg : string -> string -> option ObjectRef)
    (ps : list DFPattern) (es : list Expr) (m : NodeMap) : option NodeMap :=
  match ps, es with
  | [], [] => Some m
  | p' :: ps', e' :: es' =>
      match Match reg p' e' m with
      | Some m' => Match_args reg ps' es' m'
      | None => None
      end
  | _, _ => None
  end.

(** The bindings of a match, or the empty map. *)
Definition bindings (reg : string -> string -> option ObjectRef) (p : DFPattern)
    (e : Expr) : NodeMap :=
  match Match reg p e [] with
  | Some nm => nm
  | None => []
  end.

(* ================================================================== *)
(** ** Concrete graphs                                                *)
(* ================================================================== *)

(** An operator catalog in which the four arithmetic operators are
    broadcasting operators and nothing else is registered. *)
Definition arith_registry (op key : string) : option ObjectRef :=
  if String.eqb key "TOpPattern"
     && existsb (String.eqb op) ["add"; "subtract"; "multiply"; "divide"]
  then Some (Integer kBroadcast)
  else None.

Definition no_module : IRModule := mkIRModule [].

Definition f32 (shape : list Z) : option Ty :=
  Some (TensorType (map IntImm shape) Float32).

Definition ex_x : Expr := Var "x" (f32 [1; 3; 10; 10]%Z).
Definition ex_w : Expr := Var "w" (f32 [8; 3; 3; 3]%Z).

Definition ex_conv2d_attrs (layout kernel : string) (pads : list Z) : ConvAttrs :=
  {| strides := [IntImm 1; IntImm 1];
     padding := map IntImm pads;
     dilation := [IntImm 1; IntImm 1];
     groups := 1;
     channels := None;
     kernel_size := None;
     data_layout := layout;
     kernel_layout := kernel;
     out_layout := "";
     out_dtype := mkDataType kDLFloat 0 0 |}.

(** [conv2d(pad(x), w)], with the checked types of the pad and of the
    convolution. *)
Definition ex_conv2d_over_pad (x w : Expr) (param : PadAttrs) (pad_ty : option Ty)
    (c : ConvAttrs) (ty : option Ty) : Expr :=
  Call (Op "nn.conv2d") [Call (Op "nn.pad") [x] (PadAttrsOf param) [] None pad_ty; w]
    (ConvAttrsOf Conv2D c) [] None ty.

(** A 3x3 conv2d in layout NCHW over a pad of a float32[1,3,10,10] input
    that adds two rows and columns on each side. *)
Definition ex_conv2d_nchw (param : PadAttrs) (pads : list Z) : Expr :=
  ex_conv2d_over_pad ex_x ex_w param (f32 [1; 3; 14; 14]%Z)
    (ex_conv2d_attrs "NCHW" "OIHW" pads) (f32 [1; 8; 14; 14]%Z).

Definition conv_pad_bindings (e : Expr) : NodeMap :=
  bindings arith_registry (SimplifyConvPad.pattern_ registered_SimplifyConvPad) e.

Definition pad_2_2 : PadAttrs :=
  {| pad_value := S754_zero false;
     pad_width := [[0; 0]; [0; 0]; [2; 2]; [2; 2]]%Z;
     pad_mode := "constant" |}.

Definition ex_conv2d_two_element_padding : Expr := ex_conv2d_nchw pad_2_2 [1; 1]%Z.

Definition ex_conv2d_fusable : Expr := ex_conv2d_nchw pad_2_2 [1; 1; 1; 1]%Z.

Definition ex_conv2d_fused : Expr :=
  Call_ (Op "nn.conv2d") [ex_x; ex_w]
    (ConvAttrsOf Conv2D (ex_conv2d_attrs "NCHW" "OIHW" [3; 3; 3; 3]%Z)) [] None.

Definition pad_reflect : PadAttrs :=
  {| pad_value := S754_zero false;
     pad_width := [[0; 0]; [0; 0]; [2; 2]; [2; 2]]%Z;
     pad_mode := "reflect" |}.

Definition ex_conv2d_reflect : Expr := ex_conv2d_nchw pad_reflect [1; 1; 1; 1]%Z.

(** A pad that also adds one channel on each side. *)
Definition pad_channel : PadAttrs :=
  {| pad_value := S754_zero false;
     pad_width := [[0; 0]; [1; 1]; [2; 2]; [2; 2]]%Z;
     pad_mode := "constant" |}.

Definition ex_w5 : Expr := Var "w" (f32 [8; 5; 3; 3]%Z).

Definition ex_conv2d_channel_pad : Expr :=
  ex_conv2d_over_pad ex_x ex_w5 pad_channel (f32 [1; 5; 14; 14]%Z)
    (ex_conv2d_attrs "NCHW" "OIHW" [1; 1; 1; 1]%Z) (f32 [1; 8; 14; 14]%Z).

(** The packed layout NCHW4c: a 5-d input float32[1,1,10,10,4], padded by
    one channel block on each side, under a conv2d with a 6-d kernel. *)
Definition pad_packed_channel : PadAttrs :=
  {| pad_value := S754_zero false;
     pad_width := [[0; 0]; [1; 1]; [0; 0]; [0; 0]; [0; 0]]%Z;
     pad_mode := "constant" |}.

Definition ex_x_packed : Expr := Var "x" (f32 [1; 1; 10; 10; 4]%Z).
Definition ex_w_packed : Expr := Var "w" (f32 [2; 3; 3; 3; 4; 4]%Z).

Definition ex_conv2d_packed : Expr :=
  ex_conv2d_over_pad ex_x_packed ex_w_packed pad_packed_channel (f32 [1; 3; 10; 10; 4]%Z)
    (ex_conv2d_attrs "NCHW4c" "OIHW4i4o" [0; 0; 0; 0]%Z) (f32 [1; 2; 8; 8; 4]%Z).

Definition ex_v : Expr := Var "v" (f32 [24]%Z).

(** [reshape(reshape(v, [2,3,4]), [6,4])] *)
Definition ex_reshape_pair : Expr :=
  Call (Op "reshape")
    [Call (Op "reshape") [ex_v] (ReshapeAttrsOf (mkReshapeAttrs [2; 3; 4]%Z)) [] None
       (f32 [2; 3; 4]%Z)]
    (ReshapeAttrsOf (mkReshapeAttrs [6; 4]%Z)) [] None (f32 [6; 4]%Z).

Definition reshape_bindings (e : Expr) : NodeMap :=
  bindings arith_registry (SimplifyReshape.pattern_ registered_SimplifyReshape) e.

Definition ex_y (shape : list Z) : Expr := Var "y" (f32 shape).

(** [add(full(value), y)], the [full] and the sum of type
    float32[2,2]. *)
Definition ex_add_full (value y : Expr) : Expr :=
  Call (Op "add")
    [Call (Op "full") [value] (InitOpAttrsOf (mkInitOpAttrs (Some [2; 2]%Z) Float32)) [] None
       (f32 [2; 2]%Z);
     y]
    NullAttrs [] None (f32 [2; 2]%Z).

Definition full_bindings (e : Expr) : NodeMap :=
  bindings arith_registry (FullElementwise.pattern_ registered_FullElementwise) e.

(** A fill value that is a float64 scalar. *)
Definition ex_value_f64 : Expr :=
  Constant (mkNDArray Float64 [] [1%Z]) (Some (TensorType [] Float64)).

(** A fill value that is not a scalar. *)
Definition ex_value_vector : Expr :=
  Constant (mkNDArray Float32 [2%Z] [1%Z; 1%Z]) (f32 [2]%Z).

Definition ex_add_full_vector : Expr := ex_add_full ex_value_vector (ex_y [2; 2]%Z).

(** The same [full] next to an operand of another type. *)
Definition ex_add_full_vector_broadcast : Expr :=
  ex_add_full ex_value_vector (ex_y [1; 2]%Z).

(* ================================================================== *)
(** ** Vocabulary of the further properties                           *)
(* ================================================================== *)

(** The messages of the three [ICHECK]s that carry one. *)
Definition extent_message : string :=
  "Number of dimensions to pad and convolution padding attributes should have the same extent".

Definition layout_message : string :=
  "Data Layout and padding attributes should have the same extent".

Definition no_full_message : string :=
  "Didn't find a full op while matching full + elementwise".

(** The rows of [pad_width] that belong to the dimensions 'H', 'W' and 'D'
    of the layout, in layout order. *)
Definition image_rows (layout : string) (pad_width : list (list Z)) : list (list Z) :=
  flat_map (fun i => if SimplifyConvPad.image_dims_count layout i
                     then [nth i pad_width []] else [])
           (seq 0 (List.length pad_width)).

(** Entry [j] of every image row. *)
Definition image_column (layout : string) (pad_width : list (list Z)) (j : nat) :
    list PrimExpr :=
  map (fun row => IntImm (nth j row 0%Z)) (image_rows layout pad_width).

(** The operators whose calls the pattern [full_ || ones_ || zeros_]
    accepts. *)
Definition init_op_names : list string :=
  ["full"; "full_like"; "ones"; "ones_like"; "zeros"; "zeros_like"].

Definition is_init_call (e : Expr) : Prop :=
  exists n args at_ ta sp ty,
    e = Call (Op n) args at_ ta sp ty /\ In n init_op_names.

(* ================================================================== *)
(** ** Further concrete graphs                                        *)
(* ================================================================== *)

(** A pad that adds nothing. *)
Definition pad_none : PadAttrs :=
  {| pad_value := S754_zero false;
     pad_width := [[0; 0]; [0; 0]; [0; 0]; [0; 0]]%Z;
     pad_mode := "constant" |}.

Definition ex_conv2d_zero_pad : Expr :=
  ex_conv2d_over_pad ex_x ex_w pad_none (f32 [1; 3; 10; 10]%Z)
    (ex_conv2d_attrs "NCHW" "OIHW" [1; 1; 1; 1]%Z) (f32 [1; 8; 10; 10]%Z).

(** A [pad_width] whose row for 'H' has one entry only. *)
Definition pad_width_ragged : list (list Z) := [[0; 0]; [0; 0]; [2]; [2; 2]]%Z.

(** A convolution over a call of [nn.pad] that carries no attributes. *)
Definition ex_conv2d_pad_without_attrs : Expr :=
  Call (Op "nn.conv2d") [Call (Op "nn.pad") [ex_x] NullAttrs [] None (f32 [1; 3; 14; 14]%Z); ex_w]
    (ConvAttrsOf Conv2D (ex_conv2d_attrs "NCHW" "OIHW" [1; 1; 1; 1]%Z)) [] None
    (f32 [1; 8; 14; 14]%Z).

(** The node [add(full(value), y)] without its checked type. *)
Definition ex_add_full_node (value y : Expr) : CallNode :=
  mkCallNode (Op "add")
    [Call (Op "full") [value] (InitOpAttrsOf (mkInitOpAttrs (Some [2; 2]%Z) Float32)) [] None
       (f32 [2; 2]%Z);
     y]
    NullAttrs [] None.

Definition ex_zeros_like (y : Expr) : Expr :=
  Call (Op "zeros_like") [y] NullAttrs [] None (f32 [2; 2]%Z).

(** [add(y, zeros_like(y))], all of type float32[2,2]. *)
Definition ex_add_zeros_like : Expr :=
  Call (Op "add") [ex_y [2; 2]%Z; ex_zeros_like (ex_y [2; 2]%Z)] NullAttrs [] None
    (f32 [2; 2]%Z).

(* ================================================================== *)
(** * Properties                                                      *)
(* ================================================================== *)

(** ** Equality of objects *)

Lemma dec2bool_true (P : Prop) (d : {P} + {~ P}) : dec2bool d = true <-> P.
Proof. unfold dec2bool; destruct d; split; intros; try discriminate; tauto. Qed.

Lemma list_eqb_eq (A : Type) (eqb : A -> A -> bool) (l : list A) :
  list_all (fun x => forall y, eqb x y = true <-> x = y) l ->
  forall l', list_eqb eqb l l' = true <-> l = l'.
Proof.
  induction 1 as [|x Hx r Hr IH]; intros [|y r']; simpl;
    try (split; [discriminate | intros E; inversion E]); try tauto.
  rewrite andb_true_iff, Hx, IH. split.
  - intros [-> ->]; reflexivity.
  - intros E; inversion E; auto.
Qed.

Lemma option_eqb_eq (A : Type) (eqb : A -> A -> bool) :
  (forall a b, eqb a b = true <-> a = b) ->
  forall x y, option_eqb eqb x y = true <-> x = y.
Proof.
  intros H [a|] [b|]; simpl; try rewrite H;
    split; intros E; try discriminate; try inversion E; subst; auto.
Qed.

Lemma Ty_eqb_eq (a b : Ty) : Ty_eqb a b = true <-> a = b.
Proof.
  revert b; induction a as [s d | fs IH | xs IHxs r IHr]; intros [s' d' | fs' | xs' r'];
    simpl; try (split; [discriminate | intros E; inversion E]).
  - rewrite andb_true_iff, !dec2bool_true. split.
    + intros [-> ->]; reflexivity.
    + intros E; inversion E; auto.
  - rewrite (list_eqb_eq _ Ty_eqb _ IH). split.
    + intros ->; reflexivity.
    + intros E; inversion E; auto.
  - rewrite andb_true_iff, (list_eqb_eq _ Ty_eqb _ IHxs), IHr. split.
    + intros [-> ->]; reflexivity.
    + intros E; inversion E; auto.
Qed.

Lemma StructuralEqual_eq (t1 t2 : option Ty) : StructuralEqual t1 t2 = true <-> t1 = t2.
Proof. apply option_eqb_eq, Ty_eqb_eq. Qed.

Lemma list_all_intro (A : Type) (P : A -> Prop) (l : list A) :
  (forall x, P x) -> list_all P l.
Proof. intros H; induction l; constructor; auto. Qed.

Lemma same_as_eq (a b : Expr) : same_as a b = true <-> a = b.
Proof.
  revert b.
  induction a as [n t | d t | n | o IHo xs IHxs at_ ta sp t | fs IH t | e IHe i t
                 | ps IHps bd IHbd t];
    intros [n' t' | d' t' | n' | o' xs' at_' ta' sp' t' | fs' t' | e' i' t' | ps' bd' t'];
    simpl; try (split; [discriminate | intros E; inversion E]);
    repeat rewrite andb_true_iff;
    repeat rewrite StructuralEqual_eq;
    repeat rewrite String.eqb_eq;
    repeat rewrite dec2bool_true.
  - split; [intros [-> ->] | intros E; inversion E]; auto.
  - split; [intros [-> ->] | intros E; inversion E]; auto.
  - split; [intros -> | intros E; inversion E]; auto.
  - rewrite IHo, (list_eqb_eq _ same_as _ IHxs).
    rewrite (list_eqb_eq _ Ty_eqb _ (list_all_intro _ _ ta Ty_eqb_eq)).
    unfold Span_eqb; rewrite dec2bool_true.
    split; [intros [[[[[-> ->] ->] ->] ->] ->] | intros E; inversion E]; auto 10.
  - rewrite (list_eqb_eq _ same_as _ IH).
    split; [intros [-> ->] | intros E; inversion E]; auto.
  - rewrite IHe, Z.eqb_eq.
    split; [intros [[-> ->] ->] | intros E; inversion E]; auto.
  - rewrite (list_eqb_eq _ same_as _ IHps), IHbd.
    split; [intros [[-> ->] ->] | intros E; inversion E]; auto.
Qed.

Lemma same_as_refl (a : Expr) : same_as a a = true.
Proof. apply same_as_eq; reflexivity. Qed.

Arguments same_as : simpl never.

(** ** The registry and the pass *)

(** C10: a simplifier holds exactly three callbacks, in the order
    SimplifyReshape, FullElementwise, SimplifyConvPad, each with
    [require_type] set; [SimplifyExpr] rewrites with that list, and the
    list does not depend on the module the simplifier was built for. *)
Theorem ExprSimplifier_registry (m : IRModule) :
  callbacks_ (ExprSimplifier_of m)
  = [ mkDFPatternCallback (pattern registered_SimplifyReshape)
        (callback registered_SimplifyReshape) true;
      mkDFPatternCallback (pattern registered_FullElementwise)
        (callback registered_FullElementwise) true;
      mkDFPatternCallback (pattern registered_SimplifyConvPad)
        (callback registered_SimplifyConvPad) true ]
  /\ map cb_require_type (callbacks_ (ExprSimplifier_of m)) = [true; true; true]
  /\ (forall reg expr,
        SimplifyExpr reg expr m
        = RewritePatterns reg (callbacks_ (ExprSimplifier_of m)) expr m)
  /\ (forall m', callbacks_ (ExprSimplifier_of m') = callbacks_ (ExprSimplifier_of m)).
Proof.
  repeat split; reflexivity.
Qed.

(** C9: the pass is a function pass named "SimplifyExpr" whose list of
    required passes is exactly ["InferType"]. *)
Theorem SimplifyExpr_pass_info (reg : string -> string -> option ObjectRef) :
  exists pass_func,
    transform.SimplifyExpr reg = FunctionPass pass_func
      {| opt_level := 0; name := "SimplifyExpr"; required := ["InferType"] |}
    /\ forall f m pc,
         pass_func f m pc = (r <- SimplifyExpr reg f m ;; Downcast_Function r)%res.
Proof.
  eexists; split; [reflexivity | intros; reflexivity].
Qed.

(** ** Pattern sugar *)

Example dataflow_pattern_tests_pass :
  map (fun t : Alloc bool => fst (t 0))
      [TEST_DFPattern_binop DFPattern_add "add";
       TEST_DFPattern_binop DFPattern_sub "subtract";
       TEST_DFPattern_binop DFPattern_mul "multiply";
       TEST_DFPattern_binop DFPattern_div "divide";
       TEST_DFPattern_OR]
  = [true; true; true; true; true].
Proof. vm_compute. reflexivity. Qed.

(** C8: for all patterns [a] and [b], [a + b], [a - b], [a * b] and
    [a / b] are call patterns whose operator is an expression pattern for
    the operator "add", "subtract", "multiply", "divide" and whose
    arguments are [a; b] in that order, and [a || b] is an alternation
    with [left = a] and [right = b]. *)
Theorem pattern_sugar (a b : DFPattern) (n : nat) :
  is_binop_pattern (fst (DFPattern_add a b n)) "add" a b
  /\ is_binop_pattern (fst (DFPattern_sub a b n)) "subtract" a b
  /\ is_binop_pattern (fst (DFPattern_mul a b n)) "multiply" a b
  /\ is_binop_pattern (fst (DFPattern_div a b n)) "divide" a b
  /\ as_AltPatternNode (fst (DFPattern_or a b n)) = Some (a, b).
Proof.
  repeat split; eexists; split; reflexivity.
Qed.

(** ** Loops over indices *)

Lemma mapR_ok_map (A B : Type) (f : A -> Result B) (g : A -> B) (l : list A) :
  (forall x, In x l -> f x = Ok (g x)) -> mapR f l = Ok (map g l).
Proof.
  induction l as [|a l IH]; simpl; intros H; [reflexivity |].
  rewrite (H a (or_introl eq_refl)). simpl.
  rewrite IH by (intros; apply H; right; assumption). reflexivity.
Qed.

Lemma mapR_Forall2 (A B : Type) (f : A -> Result B) (l : list A) (ys : list B) :
  mapR f l = Ok ys -> Forall2 (fun x y => f x = Ok y) l ys.
Proof.
  revert ys; induction l as [|a l IH]; simpl; intros ys H.
  - inversion H; constructor.
  - destruct (f a) as [y|] eqn:Ha; simpl in H; [| discriminate].
    destruct (mapR f l) as [ys'|] eqn:Hl; simpl in H; [| discriminate].
    inversion H; subst. constructor; auto.
Qed.

Lemma map_seq_nth (A B : Type) (h : A -> B) (d : A) (l : list A) :
  map (fun i => h (nth i l d)) (seq 0 (List.length l)) = map h l.
Proof.
  induction l as [|a l IH]; simpl; [reflexivity |].
  f_equal. rewrite <- seq_shift, map_map. exact IH.
Qed.

Lemma Array_at_head (A : Type) (a : A) (l : list A) : Array_at (a :: l) 0 = Ok a.
Proof. reflexivity. Qed.

Lemma Array_at_nth_error (A : Type) (l : list A) (i : nat) (a : A) :
  nth_error l i = Some a -> Array_at l i = Ok a.
Proof. unfold Array_at. intros ->. reflexivity. Qed.

(** ** Case analysis of a successful match *)

Ltac break_inner :=
  match goal with
  | H : context [match ?x with _ => _ end] |- _ =>
      lazymatch x with
      | context [match _ with _ => _ end] => fail
      | _ => destruct x eqn:?; try discriminate
      end
  end.

Ltac same_as_subst :=
  repeat match goal with
         | E : same_as _ _ = true |- _ => apply same_as_eq in E; subst
         end.

Ltac invert_match H :=
  simpl in H;
  repeat (break_inner; same_as_subst; simpl in *; try discriminate).

Lemma Match_CallPattern (reg : string -> string -> option ObjectRef) (id : nat)
    (op : DFPattern) (args : list DFPattern) (e : Expr) (memo : NodeMap) :
  Match reg (CallPattern id op args) e memo =
  match e with
  | Call eop eargs _ _ _ _ =>
      match Match reg op eop memo with
      | Some m1 =>
          match Match_args reg args eargs m1 with
          | Some m2 => Some (NodeMap_push m2 id e)
          | None => None
          end
      | None => None
      end
  | _ => None
  end.
Proof.
  destruct e; try reflexivity. simpl.
  destruct (Match reg op e memo) as [m1|]; [| reflexivity].
  assert (E : forall ps es m,
             (fix Match_args (ps : list DFPattern) (es : list Expr) (m : NodeMap)
                {struct ps} : option NodeMap :=
                match ps, es with
                | [], [] => Some m
                | p' :: ps', e' :: es' =>
                    match Match reg p' e' m with
                    | Some m' => Match_args ps' es' m'
                    | None => None
                    end
                | _, _ => None
                end) ps es m = Match_args reg ps es m).
  { induction ps as [|p ps IH]; intros [|e' es] m; simpl; try reflexivity.
    destruct (Match reg p e' m); [apply IH | reflexivity]. }
  rewrite E. reflexivity.
Qed.

Lemma Match_args_arity (reg : string -> string -> option ObjectRef)
    (ps : list DFPattern) (es : list Expr) (m : NodeMap) :
  List.length ps <> List.length es -> Match_args reg ps es m = None.
Proof.
  revert es m; induction ps as [|p ps IH]; intros [|e es] m Hlen; simpl in *;
    try congruence.
  destruct (Match reg p e m); [apply IH; congruence | reflexivity].
Qed.

Lemma Match_Alt_None (reg : string -> string -> option ObjectRef) (id : nat)
    (l r : DFPattern) (e : Expr) (memo : NodeMap) :
  Match reg l e memo = None -> Match reg r e memo = None ->
  Match reg (AltPattern id l r) e memo = None.
Proof. intros Hl Hr. simpl. rewrite Hl, Hr. reflexivity. Qed.

(** ** Pad into convolution *)

Lemma combine_padding_eq (p o : list PrimExpr) :
  List.length p = List.length o ->
  SimplifyConvPad.combine_padding p o = Ok (map add_pair (combine p o)).
Proof.
  intros Hlen. unfold SimplifyConvPad.combine_padding.
  rewrite (@mapR_ok_map _ _ _ (fun i => add_pair (nth i (combine p o) (Any, Any)))).
  - f_equal.
    replace (List.length p) with (List.length (combine p o))
      by (rewrite length_combine; lia).
    apply map_seq_nth.
  - intros i Hi. apply in_seq in Hi. simpl in Hi.
    unfold Array_at.
    rewrite (nth_error_nth' p Any) by lia.
    rewrite (nth_error_nth' o Any) by lia. simpl.
    rewrite combine_nth by assumption. reflexivity.
Qed.

Lemma pads_non_spatial_true (layout : string) (pad_width : list (list Z)) :
  pads_outside_image_dims layout pad_width ->
  SimplifyConvPad.pads_non_spatial layout pad_width = true.
Proof.
  intros (i & row & v & c & Hrow & Hv & Hnz & Hc & HH & HW & HD).
  unfold SimplifyConvPad.pads_non_spatial.
  apply existsb_exists. exists i. split.
  - apply in_seq. split; [lia |]. simpl.
    apply nth_error_Some. rewrite Hrow. discriminate.
  - unfold SimplifyConvPad.image_dims_count. rewrite Hc.
    apply Ascii.eqb_neq in HH, HW, HD. rewrite HH, HW, HD. simpl.
    apply existsb_exists. exists v. split.
    + rewrite (nth_error_nth _ _ [] Hrow). exact Hv.
    + apply negb_true_iff, Z.eqb_neq. exact Hnz.
Qed.

Lemma MakeConvAttrs_ok (T : ConvKind) (old : ConvAttrs) (p : list PrimExpr) (attrs : Attrs) :
  SimplifyConvPad.MakeConvAttrs T (Some old) p = Ok attrs ->
  List.length p = List.length (padding old)
  /\ attrs = ConvAttrsOf T
               {| strides := strides old;
                  padding := map add_pair (combine p (padding old));
                  dilation := dilation old;
                  groups := groups old;
                  channels := channels old;
                  kernel_size := kernel_size old;
                  data_layout := data_layout old;
                  kernel_layout := kernel_layout old;
                  out_layout := out_layout old;
                  out_dtype := out_dtype old |}.
Proof.
  unfold SimplifyConvPad.MakeConvAttrs. simpl.
  destruct (Nat.eqb (List.length p) (List.length (padding old))) eqn:E; simpl;
    [| discriminate].
  apply Nat.eqb_eq in E. rewrite (combine_padding_eq _ _ E). simpl.
  intros H; inversion H; subst. split; [assumption | reflexivity].
Qed.

Lemma spatial_padding_IntImm (layout : string) (pad_width : list (list Z))
    (extracted : list PrimExpr) :
  SimplifyConvPad.spatial_padding layout pad_width = Ok extracted ->
  exists amounts, extracted = map IntImm amounts.
Proof.
  intros H.
  assert (HF : Forall (fun e => exists v, e = IntImm v) extracted).
  { unfold SimplifyConvPad.spatial_padding in H.
    destruct (Array_at pad_width 0) as [row0|]; simpl in H; [| discriminate].
    match type of H with
    | bindR (mapR ?f ?l) _ = _ => destruct (mapR f l) as [columns|] eqn:Hc
    end; simpl in H; [| discriminate].
    inversion H; subst; clear H.
    apply mapR_Forall2 in Hc.
    apply Forall_concat.
    induction Hc as [|j col js cols Hj _ IH]; constructor; [| exact IH].
    match type of Hj with
    | bindR (mapR ?f ?l) _ = _ => destruct (mapR f l) as [picked|] eqn:Hp
    end; simpl in Hj; [| discriminate].
    inversion Hj; subst; clear Hj.
    apply mapR_Forall2 in Hp.
    apply Forall_concat.
    clear IH. induction Hp as [|i one is_ ones Hi _ IHp]; constructor; [| exact IHp].
    destruct (SimplifyConvPad.image_dims_count layout i).
    - destruct (Array_at pad_width i) as [row|]; simpl in Hi; [| discriminate].
      destruct (Array_at row j) as [v|]; simpl in Hi; [| discriminate].
      inversion Hi; subst. constructor; [eexists; reflexivity | constructor].
    - inversion Hi; subst. constructor. }
  clear H. induction HF as [|e l [v ->] _ [amounts ->]].
  - exists []; reflexivity.
  - exists (v :: amounts); reflexivity.
Qed.

Lemma add_pair_constants (amounts orig : list Z) :
  map add_pair (combine (map IntImm amounts) (map IntImm orig))
  = map IntImm (map (fun oa => (fst oa + snd oa)%Z) (combine orig amounts)).
Proof.
  revert orig; induction amounts as [|a amounts IH]; intros [|o orig]; simpl;
    try reflexivity.
  rewrite IH. unfold add_pair. simpl. rewrite (Z.add_comm a o). reflexivity.
Qed.

(** What a match of the rule's pattern looks like: a convolution over a
    call to [nn.pad], with the bindings the callback reads. *)
Lemma conv_pad_match_inv (reg : string -> string -> option ObjectRef)
    (post : Expr) (nm : NodeMap) :
  Match reg (SimplifyConvPad.pattern_ registered_SimplifyConvPad) post [] = Some nm ->
  exists T x pa pta psp pty w ca ta sp ty,
    post = Call (Op (conv_op_name T)) [Call (Op "nn.pad") [x] pa pta psp pty; w] ca ta sp ty
    /\ Map_at nm (SimplifyConvPad.pad_ registered_SimplifyConvPad)
       = Ok [Call (Op "nn.pad") [x] pa pta psp pty]
    /\ Map_at nm (SimplifyConvPad.x_ registered_SimplifyConvPad) = Ok [x]
    /\ Map_at nm (SimplifyConvPad.w_ registered_SimplifyConvPad) = Ok [w]
    /\ Map_count nm (SimplifyConvPad.conv1d_ registered_SimplifyConvPad) = ConvKind_eqb T Conv1D
    /\ Map_count nm (SimplifyConvPad.conv2d_ registered_SimplifyConvPad) = ConvKind_eqb T Conv2D
    /\ Map_count nm (SimplifyConvPad.conv3d_ registered_SimplifyConvPad) = ConvKind_eqb T Conv3D.
Proof.
  intros H. invert_match H.
  all: inversion H; subst; clear H.
  - exists Conv1D. do 10 eexists. repeat split; reflexivity.
  - exists Conv2D. do 10 eexists. repeat split; reflexivity.
  - exists Conv3D. do 10 eexists. repeat split; reflexivity.
Qed.

Lemma as_ConvAttrs_same (T : ConvKind) (c : ConvAttrs) :
  as_ConvAttrs T (ConvAttrsOf T c) = Some c.
Proof. destruct T; reflexivity. Qed.

Lemma conv_op_name_inj (T T' : ConvKind) : conv_op_name T = conv_op_name T' -> T = T'.
Proof. destruct T, T'; simpl; intros H; try reflexivity; discriminate. Qed.

(** The callback on a matched convolution over a pad, with the lookups in
    the binding map resolved. *)
Lemma conv_pad_callback_matched (reg : string -> string -> option ObjectRef)
    (pre post : Expr) (nm : NodeMap)
    (T : ConvKind) (x w : Expr) (pa ca : Attrs) (pta ta : list Ty) (psp sp : Span)
    (pty ty : option Ty) :
  post = Call (Op (conv_op_name T)) [Call (Op "nn.pad") [x] pa pta psp pty; w] ca ta sp ty ->
  Match reg (SimplifyConvPad.pattern_ registered_SimplifyConvPad) post [] = Some nm ->
  SimplifyConvPad.callback registered_SimplifyConvPad pre post nm =
  (param <- ICHECK_ptr (as_PadAttrs pa) "param" ;;
   if String.eqb (pad_mode param) "constant" && SFeqb (pad_value param) (S754_zero false)
   then
     (attrs <- SimplifyConvPad.GetAttrs T (Some param) (as_ConvAttrs T ca) ;;
      if negb (defined attrs) then Ok post
      else Ok (Call_ (Op (conv_op_name T)) [x; w] attrs ta sp))
   else Ok post)%res.
Proof.
  intros Hpost HM.
  destruct (conv_pad_match_inv _ _ _ HM)
    as (T' & x' & pa' & pta' & psp' & pty' & w' & ca' & ta' & sp' & ty'
        & Hpost' & Hpad & Hx & Hw & H1 & H2 & H3).
  rewrite Hpost in Hpost'. inversion Hpost' as [[HT Hx' Hpa Hpta Hpsp Hpty Hw' Hca Hta Hsp Hty]].
  apply conv_op_name_inj in HT. subst T' x' pa' pta' psp' pty' w' ca' ta' sp' ty'.
  rewrite <- Hpost in *. clear Hpost' HM.
  unfold SimplifyConvPad.callback.
  rewrite Hpad, Hx, Hw, H1, H2, H3. rewrite Hpost. simpl.
  destruct (as_PadAttrs pa) as [param|]; simpl; [| reflexivity].
  destruct (String.eqb (pad_mode param) "constant" && SFeqb (pad_value param) (S754_zero false));
    [| reflexivity].
  destruct T; simpl;
    match goal with
    | |- context [SimplifyConvPad.GetAttrs ?T ?p ?a] =>
        destruct (SimplifyConvPad.GetAttrs T p a)
    end; reflexivity.
Qed.

(** C3: on a matched convolution over a pad, the callback returns the
    unchanged [post] node whenever the pad's mode is not "constant" or its
    value is not zero, so that a rewrite happens only for a constant, zero
    pad. *)
Theorem conv_pad_requires_constant_zero_pad
    (reg : string -> string -> option ObjectRef) (pre post : Expr) (nm : NodeMap)
    (T : ConvKind) (x w : Expr) (param : PadAttrs) (ca : Attrs) (pta ta : list Ty)
    (psp sp : Span) (pty ty : option Ty) :
  post = Call (Op (conv_op_name T))
              [Call (Op "nn.pad") [x] (PadAttrsOf param) pta psp pty; w] ca ta sp ty ->
  Match reg (SimplifyConvPad.pattern_ registered_SimplifyConvPad) post [] = Some nm ->
  (pad_mode param <> "constant" \/ SFeqb (pad_value param) (S754_zero false) = false ->
   SimplifyConvPad.callback registered_SimplifyConvPad pre post nm = Ok post)
  /\ (forall r,
        SimplifyConvPad.callback registered_SimplifyConvPad pre post nm = Ok r ->
        r <> post ->
        pad_mode param = "constant" /\ SFeqb (pad_value param) (S754_zero false) = true).
Proof.
  intros Hpost HM.
  rewrite (conv_pad_callback_matched reg pre _ _ _ _ _ _ _ _ _ _ _ _ _ Hpost HM). simpl.
  split.
  - intros [Hmode | Hval].
    + apply String.eqb_neq in Hmode. rewrite Hmode. reflexivity.
    + rewrite Hval, andb_false_r. reflexivity.
  - intros r Hr Hne.
    destruct (String.eqb (pad_mode param) "constant") eqn:Em;
      destruct (SFeqb (pad_value param) (S754_zero false)) eqn:Ev; simpl in Hr;
      try (inversion Hr; subst; contradiction).
    apply String.eqb_eq in Em. split; [assumption | reflexivity].
Qed.

Lemma conv_pad_requires_constant_zero_pad_witness :
  SimplifyConvPad.callback registered_SimplifyConvPad ex_conv2d_reflect ex_conv2d_reflect
    (conv_pad_bindings ex_conv2d_reflect)
  = Ok ex_conv2d_reflect.
Proof.
  apply (proj1 (conv_pad_requires_constant_zero_pad arith_registry ex_conv2d_reflect
                  ex_conv2d_reflect (conv_pad_bindings ex_conv2d_reflect)
                  Conv2D ex_x ex_w pad_reflect
                  (ConvAttrsOf Conv2D (ex_conv2d_attrs "NCHW" "OIHW" [1; 1; 1; 1]%Z))
                  [] [] None None (f32 [1; 3; 14; 14]%Z) (f32 [1; 8; 14; 14]%Z)
                  eq_refl eq_refl)).
  left. discriminate.
Defined.

(** C2, amended: on a matched convolution over a pad whose data layout has
    as many characters as [pad_width] has rows, a non-zero entry of
    [pad_width] on a dimension whose layout character is none of 'H', 'W',
    'D' makes the callback return the unchanged [post] node. *)
Theorem conv_pad_non_spatial_unchanged
    (reg : string -> string -> option ObjectRef) (pre post : Expr) (nm : NodeMap)
    (T : ConvKind) (x w : Expr) (param : PadAttrs) (c : ConvAttrs) (pta ta : list Ty)
    (psp sp : Span) (pty ty : option Ty) :
  post = Call (Op (conv_op_name T))
              [Call (Op "nn.pad") [x] (PadAttrsOf param) pta psp pty; w]
              (ConvAttrsOf T c) ta sp ty ->
  Match reg (SimplifyConvPad.pattern_ registered_SimplifyConvPad) post [] = Some nm ->
  String.length (data_layout c) = List.length (pad_width param) ->
  pads_outside_image_dims (data_layout c) (pad_width param) ->
  SimplifyConvPad.callback registered_SimplifyConvPad pre post nm = Ok post.
Proof.
  intros Hpost HM Hlen Hout.
  rewrite (conv_pad_callback_matched reg pre _ _ _ _ _ _ _ _ _ _ _ _ _ Hpost HM).
  rewrite as_ConvAttrs_same. simpl.
  destruct (String.eqb (pad_mode param) "constant" && SFeqb (pad_value param) (S754_zero false));
    [| reflexivity].
  unfold SimplifyConvPad.GetAttrs. simpl. rewrite Hlen, Nat.eqb_refl. simpl.
  rewrite (pads_non_spatial_true _ _ Hout). reflexivity.
Qed.

Lemma conv_pad_non_spatial_unchanged_witness :
  pads_outside_image_dims "NCHW" (pad_width pad_channel)
  /\ SimplifyConvPad.callback registered_SimplifyConvPad ex_conv2d_channel_pad
       ex_conv2d_channel_pad (conv_pad_bindings ex_conv2d_channel_pad)
     = Ok ex_conv2d_channel_pad.
Proof.
  assert (H : pads_outside_image_dims "NCHW" (pad_width pad_channel)).
  { exists 1, [1; 1]%Z, 1%Z, "C"%char.
    repeat split; try reflexivity; try discriminate. left; reflexivity. }
  split; [exact H |].
  apply (conv_pad_non_spatial_unchanged arith_registry ex_conv2d_channel_pad
           ex_conv2d_channel_pad (conv_pad_bindings ex_conv2d_channel_pad)
           Conv2D ex_x ex_w5 pad_channel (ex_conv2d_attrs "NCHW" "OIHW" [1; 1; 1; 1]%Z)
           [] [] None None (f32 [1; 5; 14; 14]%Z) (f32 [1; 8; 14; 14]%Z)).
  - reflexivity.
  - vm_compute. reflexivity.
  - reflexivity.
  - exact H.
Defined.

(** A conv2d in the packed layout "NCHW4c" over a pad of a 5-d tensor that
    pads the channel dimension: the layout has six characters and
    [pad_width] five rows, and the callback fails its extent check instead
    of returning the node. *)
Lemma conv_pad_packed_layout_aborts :
  Match arith_registry (SimplifyConvPad.pattern_ registered_SimplifyConvPad)
    ex_conv2d_packed [] = Some (conv_pad_bindings ex_conv2d_packed)
  /\ pads_outside_image_dims "NCHW4c" (pad_width pad_packed_channel)
  /\ SimplifyConvPad.callback registered_SimplifyConvPad ex_conv2d_packed ex_conv2d_packed
       (conv_pad_bindings ex_conv2d_packed)
     = Abort (ICheckFailed "Data Layout and padding attributes should have the same extent")
  /\ SimplifyConvPad.callback registered_SimplifyConvPad ex_conv2d_packed ex_conv2d_packed
       (conv_pad_bindings ex_conv2d_packed)
     <> Ok ex_conv2d_packed.
Proof.
  split; [vm_compute; reflexivity |].
  split.
  - exists 1, [1; 1]%Z, 1%Z, "C"%char.
    repeat split; try reflexivity; try discriminate. left; reflexivity.
  - split; [vm_compute; reflexivity | vm_compute; discriminate].
Qed.

(** C7: when the fusion fires, the new convolution has the operator, type
    arguments and span of the matched one and sits directly over the
    pad's input and the weight; every attribute but [padding] is the
    matched convolution's, and the new [padding] is, element by element,
    the extracted spatial pad amount added to the convolution's own
    padding. *)
Theorem conv_pad_fused_attrs
    (reg : string -> string -> option ObjectRef) (pre post r : Expr) (nm : NodeMap)
    (T : ConvKind) (x w : Expr) (param : PadAttrs) (c : ConvAttrs) (pta ta : list Ty)
    (psp sp : Span) (pty ty : option Ty) :
  post = Call (Op (conv_op_name T))
              [Call (Op "nn.pad") [x] (PadAttrsOf param) pta psp pty; w]
              (ConvAttrsOf T c) ta sp ty ->
  Match reg (SimplifyConvPad.pattern_ registered_SimplifyConvPad) post [] = Some nm ->
  SimplifyConvPad.callback registered_SimplifyConvPad pre post nm = Ok r ->
  r <> post ->
  exists c' amounts,
    r = Call_ (Op (conv_op_name T)) [x; w] (ConvAttrsOf T c') ta sp
    /\ strides c' = strides c
    /\ dilation c' = dilation c
    /\ groups c' = groups c
    /\ channels c' = channels c
    /\ kernel_size c' = kernel_size c
    /\ data_layout c' = data_layout c
    /\ kernel_layout c' = kernel_layout c
    /\ out_layout c' = out_layout c
    /\ out_dtype c' = out_dtype c
    /\ SimplifyConvPad.spatial_padding (data_layout c) (pad_width param)
       = Ok (map IntImm amounts)
    /\ List.length amounts = List.length (padding c)
    /\ padding c' = map add_pair (combine (map IntImm amounts) (padding c))
    /\ (forall orig,
          padding c = map IntImm orig ->
          padding c' = map IntImm (map (fun oa => (fst oa + snd oa)%Z) (combine orig amounts))).
Proof.
  intros Hpost HM Hr Hne.
  rewrite (conv_pad_callback_matched reg pre _ _ _ _ _ _ _ _ _ _ _ _ _ Hpost HM) in Hr.
  rewrite as_ConvAttrs_same in Hr. simpl in Hr.
  destruct (String.eqb (pad_mode param) "constant" && SFeqb (pad_value param) (S754_zero false));
    [| inversion Hr; subst; contradiction].
  unfold SimplifyConvPad.GetAttrs in Hr. simpl in Hr.
  destruct (Nat.eqb (String.length (data_layout c)) (List.length (pad_width param)));
    simpl in Hr; [| discriminate].
  destruct (SimplifyConvPad.pads_non_spatial (data_layout c) (pad_width param));
    simpl in Hr; [inversion Hr; subst; contradiction |].
  destruct (SimplifyConvPad.spatial_padding (data_layout c) (pad_width param))
    as [extracted|] eqn:Hex; simpl in Hr; [| discriminate].
  destruct (spatial_padding_IntImm _ _ _ Hex) as [amounts ->].
  destruct (SimplifyConvPad.MakeConvAttrs T (Some c) (map IntImm amounts))
    as [attrs|] eqn:Hmk; simpl in Hr; [| discriminate].
  apply MakeConvAttrs_ok in Hmk. destruct Hmk as [Hlen ->].
  simpl in Hr. inversion Hr; subst r; clear Hr.
  rewrite length_map in Hlen.
  eexists; exists amounts.
  split; [reflexivity |]. simpl.
  repeat (split; [reflexivity |]).
  split; [assumption |]. split; [reflexivity |].
  intros orig ->. apply add_pair_constants.
Qed.

Lemma conv_pad_fused_attrs_witness :
  SimplifyConvPad.callback registered_SimplifyConvPad ex_conv2d_fusable ex_conv2d_fusable
    (conv_pad_bindings ex_conv2d_fusable) = Ok ex_conv2d_fused
  /\ exists c' amounts,
       ex_conv2d_fused = Call_ (Op "nn.conv2d") [ex_x; ex_w] (ConvAttrsOf Conv2D c') [] None
       /\ SimplifyConvPad.spatial_padding "NCHW" (pad_width pad_2_2) = Ok (map IntImm amounts)
       /\ padding c' = map add_pair (combine (map IntImm amounts)
                                       (map IntImm [1; 1; 1; 1]%Z)).
Proof.
  assert (Hr : SimplifyConvPad.callback registered_SimplifyConvPad ex_conv2d_fusable
                 ex_conv2d_fusable (conv_pad_bindings ex_conv2d_fusable)
               = Ok ex_conv2d_fused) by (vm_compute; reflexivity).
  split; [exact Hr |].
  destruct (conv_pad_fused_attrs arith_registry ex_conv2d_fusable ex_conv2d_fusable
              ex_conv2d_fused (conv_pad_bindings ex_conv2d_fusable)
              Conv2D ex_x ex_w pad_2_2 (ex_conv2d_attrs "NCHW" "OIHW" [1; 1; 1; 1]%Z)
              [] [] None None (f32 [1; 3; 14; 14]%Z) (f32 [1; 8; 14; 14]%Z)
              eq_refl eq_refl Hr)
    as (c' & amounts & H).
  - vm_compute. discriminate.
  - exists c', amounts. intuition.
Defined.

(** ** The rewriter on a convolution over a pad *)

(** No rule matches an operator node. *)
Lemma Rewrite_Op (reg : string -> string -> option ObjectRef) (n : string) :
  Rewrite reg registry (Op n) = Ok (Op n).
Proof. reflexivity. Qed.

Arguments has_attrs : simpl never.

Lemma reshape_no_match (reg : string -> string -> option ObjectRef)
    (args : list Expr) (a : Attrs) (ta : list Ty) (sp : Span) (ty : option Ty) (n : string) :
  n <> "reshape" -> n <> "contrib_reverse_reshape" ->
  Match reg (pattern registered_SimplifyReshape) (Call (Op n) args a ta sp ty) [] = None.
Proof.
  intros H1 H2.
  change (pattern registered_SimplifyReshape)
    with (SimplifyReshape.pattern_ registered_SimplifyReshape).
  let p := eval vm_compute in (SimplifyReshape.pattern_ registered_SimplifyReshape) in
  change (SimplifyReshape.pattern_ registered_SimplifyReshape) with p.
  rewrite Match_CallPattern.
  simpl.
  destruct (same_as (Op "reshape") (Op n)) eqn:E1.
  { apply same_as_eq in E1. inversion E1. congruence. }
  destruct (same_as (Op "contrib_reverse_reshape") (Op n)) eqn:E2.
  { apply same_as_eq in E2. inversion E2. congruence. }
  reflexivity.
Qed.

Lemma full_no_match_op (reg : string -> string -> option ObjectRef) (n : string)
    (args : list Expr) (a : Attrs) (ta : list Ty) (sp : Span) (ty : option Ty) :
  has_attrs reg (Op n) [("TOpPattern", Integer kBroadcast)] = false ->
  Match reg (pattern registered_FullElementwise) (Call (Op n) args a ta sp ty) [] = None.
Proof.
  intros H.
  change (pattern registered_FullElementwise)
    with (FullElementwise.pattern_ registered_FullElementwise).
  let p := eval vm_compute in (FullElementwise.pattern_ registered_FullElementwise) in
  change (FullElementwise.pattern_ registered_FullElementwise) with p.
  apply Match_Alt_None; rewrite Match_CallPattern.
  - simpl Match at 1. change (Integer 1) with (Integer kBroadcast). rewrite H. reflexivity.
  - simpl Match at 1. change (Integer 1) with (Integer kBroadcast). rewrite H. reflexivity.
Qed.

Lemma full_no_match_unary (reg : string -> string -> option ObjectRef) (op e : Expr)
    (a : Attrs) (ta : list Ty) (sp : Span) (ty : option Ty) :
  Match reg (pattern registered_FullElementwise) (Call op [e] a ta sp ty) [] = None.
Proof.
  change (pattern registered_FullElementwise)
    with (FullElementwise.pattern_ registered_FullElementwise).
  let p := eval vm_compute in (FullElementwise.pattern_ registered_FullElementwise) in
  change (FullElementwise.pattern_ registered_FullElementwise) with p.
  apply Match_Alt_None; rewrite Match_CallPattern.
  - destruct (Match _ _ op _); [| reflexivity].
    rewrite Match_args_arity; [reflexivity | simpl; congruence].
  - destruct (Match _ _ op _); [| reflexivity].
    rewrite Match_args_arity; [reflexivity | simpl; congruence].
Qed.

Lemma conv_pad_no_match (reg : string -> string -> option ObjectRef) (n : string)
    (args : list Expr) (a : Attrs) (ta : list Ty) (sp : Span) (ty : option Ty) :
  n <> "nn.conv1d" -> n <> "nn.conv2d" -> n <> "nn.conv3d" ->
  Match reg (pattern registered_SimplifyConvPad) (Call (Op n) args a ta sp ty) [] = None.
Proof.
  intros H1 H2 H3.
  change (pattern registered_SimplifyConvPad)
    with (SimplifyConvPad.pattern_ registered_SimplifyConvPad).
  let p := eval vm_compute in (SimplifyConvPad.pattern_ registered_SimplifyConvPad) in
  change (SimplifyConvPad.pattern_ registered_SimplifyConvPad) with p.
  rewrite Match_CallPattern.
  simpl.
  destruct (same_as (Op "nn.conv1d") (Op n)) eqn:E1.
  { apply same_as_eq in E1. inversion E1. congruence. }
  destruct (same_as (Op "nn.conv2d") (Op n)) eqn:E2.
  { apply same_as_eq in E2. inversion E2. congruence. }
  destruct (same_as (Op "nn.conv3d") (Op n)) eqn:E3.
  { apply same_as_eq in E3. inversion E3. congruence. }
  reflexivity.
Qed.

(** One step of the traversal at a call. *)
Lemma Rewrite_Call (reg : string -> string -> option ObjectRef)
    (cbs : list DFPatternCallback) (op : Expr) (args : list Expr) (attrs : Attrs)
    (ta : list Ty) (sp : Span) (ty : option Ty) :
  Rewrite reg cbs (Call op args attrs ta sp ty) =
  (op' <- Rewrite reg cbs op ;;
   args' <- mapR (Rewrite reg cbs) args ;;
   apply_rules reg cbs (Call op args attrs ta sp ty)
     (if same_as op op' && list_eqb same_as args args'
      then Call op args attrs ta sp ty else Call_ op' args' attrs ta sp))%res.
Proof. reflexivity. Qed.

(** The three rules in sequence, each on the candidate the previous one
    left. *)
Lemma apply_rules_registry (reg : string -> string -> option ObjectRef) (pre cand : Expr) :
  apply_rules reg registry pre cand =
  (c1 <- match Match reg (pattern registered_SimplifyReshape) cand [] with
         | Some nm => callback registered_SimplifyReshape pre cand nm
         | None => Ok cand
         end ;;
   c2 <- match Match reg (pattern registered_FullElementwise) c1 [] with
         | Some nm => callback registered_FullElementwise pre c1 nm
         | None => Ok c1
         end ;;
   match Match reg (pattern registered_SimplifyConvPad) c2 [] with
   | Some nm => callback registered_SimplifyConvPad pre c2 nm
   | None => Ok c2
   end)%res.
Proof.
  unfold registry. cbn [apply_rules cb_pattern cb_function].
  destruct (Match reg (pattern registered_SimplifyReshape) cand []) as [nm1|]; cbn [bindR].
  - destruct (callback registered_SimplifyReshape pre cand nm1) as [c1|]; cbn [bindR];
      [| reflexivity].
    destruct (Match reg (pattern registered_FullElementwise) c1 []) as [nm2|]; cbn [bindR].
    + destruct (callback registered_FullElementwise pre c1 nm2) as [c2|]; cbn [bindR];
        [| reflexivity].
      destruct (Match reg (pattern registered_SimplifyConvPad) c2 []) as [nm3|].
      * destruct (callback registered_SimplifyConvPad pre c2 nm3); reflexivity.
      * reflexivity.
    + destruct (Match reg (pattern registered_SimplifyConvPad) c1 []) as [nm3|].
      * destruct (callback registered_SimplifyConvPad pre c1 nm3); reflexivity.
      * reflexivity.
  - destruct (Match reg (pattern registered_FullElementwise) cand []) as [nm2|]; cbn [bindR].
    + destruct (callback registered_FullElementwise pre cand nm2) as [c2|]; cbn [bindR];
        [| reflexivity].
      destruct (Match reg (pattern registered_SimplifyConvPad) c2 []) as [nm3|].
      * destruct (callback registered_SimplifyConvPad pre c2 nm3); reflexivity.
      * reflexivity.
    + destruct (Match reg (pattern registered_SimplifyConvPad) cand []) as [nm3|].
      * destruct (callback registered_SimplifyConvPad pre cand nm3); reflexivity.
      * reflexivity.
Qed.

Lemma has_attrs_not_broadcast (reg : string -> string -> option ObjectRef) (n : string) :
  reg n "TOpPattern" <> Some (Integer kBroadcast) ->
  has_attrs reg (Op n) [("TOpPattern", Integer kBroadcast)] = false.
Proof.
  intros H. unfold has_attrs. simpl.
  destruct (reg n "TOpPattern") as [v|]; [| reflexivity].
  unfold dec2bool. destruct (ObjectRef_eq_dec v (Integer kBroadcast)); [| reflexivity].
  subst. contradiction.
Qed.

(** No rule fires at a call to [nn.pad]. *)
Lemma pad_node_rules (reg : string -> string -> option ObjectRef) (pre x : Expr)
    (pa : Attrs) (pta : list Ty) (psp : Span) (pty : option Ty) :
  apply_rules reg registry pre (Call (Op "nn.pad") [x] pa pta psp pty)
  = Ok (Call (Op "nn.pad") [x] pa pta psp pty).
Proof.
  rewrite apply_rules_registry.
  rewrite reshape_no_match by discriminate. cbn [bindR].
  rewrite full_no_match_unary. cbn [bindR].
  rewrite conv_pad_no_match by discriminate. reflexivity.
Qed.

(** C1, amended: a conv2d with data layout NCHW and padding [1,1,1,1] over
    an [nn.pad] with constant mode, zero value and pad_width
    [[0,0],[0,0],[2,2],[2,2]] is rewritten by [SimplifyExpr] to one conv2d
    call directly over the rewritten input of the pad and the rewritten
    weight, with padding [3,3,3,3] and every other field of the call as it
    was; the call to [nn.pad] is gone. *)
Theorem conv2d_pad_fuses (reg : string -> string -> option ObjectRef) (m : IRModule)
    (x w x' w' : Expr) (c : ConvAttrs) (pta ta : list Ty) (psp sp : Span)
    (pty ty : option Ty) :
  data_layout c = "NCHW" ->
  padding c = map IntImm [1; 1; 1; 1]%Z ->
  reg "nn.conv2d" "TOpPattern" <> Some (Integer kBroadcast) ->
  Rewrite reg registry x = Ok x' ->
  Rewrite reg registry w = Ok w' ->
  SimplifyExpr reg
    (Call (Op "nn.conv2d") [Call (Op "nn.pad") [x] (PadAttrsOf pad_2_2) pta psp pty; w]
       (ConvAttrsOf Conv2D c) ta sp ty) m
  = Ok (Call_ (Op "nn.conv2d") [x'; w']
          (ConvAttrsOf Conv2D (set_padding c (map IntImm [3; 3; 3; 3]%Z))) ta sp).
Proof.
  intros Hlayout Hpadding Hreg Hx Hw.
  unfold SimplifyExpr, Simplify, RewritePatterns.
  change (callbacks_ (ExprSimplifier_of m)) with registry.
  rewrite Rewrite_Call, Rewrite_Op. cbn [bindR].
  cbn [mapR]. rewrite Rewrite_Call, Rewrite_Op. cbn [bindR].
  cbn [mapR]. rewrite Hx, Hw. cbn [bindR].
  match goal with
  | |- context [apply_rules reg registry ?pre (if ?b then ?p else ?q)] =>
      assert (Hpad : exists pty', (if b then p else q) = Call (Op "nn.pad") [x'] (PadAttrsOf pad_2_2) pta psp pty')
  end.
  { rewrite same_as_refl. simpl. destruct (same_as x x') eqn:E; simpl.
    - apply same_as_eq in E; subst. eexists; reflexivity.
    - eexists; reflexivity. }
  destruct Hpad as [pty' ->].
  rewrite pad_node_rules. cbn [bindR].
  match goal with
  | |- apply_rules reg registry ?pre (if ?b then ?p else ?q) = _ =>
      assert (Hconv : exists ty', (if b then p else q)
                = Call (Op "nn.conv2d") [Call (Op "nn.pad") [x'] (PadAttrsOf pad_2_2) pta psp pty'; w']
                       (ConvAttrsOf Conv2D c) ta sp ty')
  end.
  { match goal with |- exists _, (if ?b then _ else _) = _ => destruct b eqn:E end.
    - rewrite same_as_refl in E. simpl in E.
      apply andb_true_iff in E. destruct E as [E1 E2].
      apply andb_true_iff in E2. destruct E2 as [E2 _].
      apply same_as_eq in E1, E2. inversion E1; subst. eexists; reflexivity.
    - eexists; reflexivity. }
  destruct Hconv as [ty' ->].
  rewrite apply_rules_registry.
  rewrite reshape_no_match by discriminate. cbn [bindR].
  rewrite full_no_match_op by (apply has_attrs_not_broadcast; assumption). cbn [bindR].
  destruct (Match reg (pattern registered_SimplifyConvPad) _ []) as [nm|] eqn:HM;
    [| vm_compute in HM; discriminate].
  change (callback registered_SimplifyConvPad) with (SimplifyConvPad.callback registered_SimplifyConvPad).
  rewrite (conv_pad_callback_matched reg _ _ _ Conv2D x' w' _ _ _ _ _ _ _ _ eq_refl HM).
  rewrite as_ConvAttrs_same.
  unfold SimplifyConvPad.GetAttrs, SimplifyConvPad.MakeConvAttrs, set_padding.
  cbn [bindR ICHECK_ptr as_PadAttrs].
  rewrite Hlayout, Hpadding. reflexivity.
Qed.

Lemma conv2d_pad_fuses_witness :
  SimplifyExpr arith_registry ex_conv2d_fusable no_module = Ok ex_conv2d_fused.
Proof.
  apply (conv2d_pad_fuses arith_registry no_module ex_x ex_w ex_x ex_w
           (ex_conv2d_attrs "NCHW" "OIHW" [1; 1; 1; 1]%Z) [] [] None None
           (f32 [1; 3; 14; 14]%Z) (f32 [1; 8; 14; 14]%Z)).
  - reflexivity.
  - reflexivity.
  - vm_compute. discriminate.
  - vm_compute. reflexivity.
  - vm_compute. reflexivity.
Defined.

(** With the two-element padding [1,1] the rewrite does not produce a
    conv2d with padding [3,3]: the four extracted pad amounts do not have
    the extent of the padding attribute, and [MakeConvAttrs] fails its
    check. *)
Lemma conv2d_pad_two_element_padding_aborts :
  SimplifyExpr arith_registry ex_conv2d_two_element_padding no_module
  = Abort (ICheckFailed
      "Number of dimensions to pad and convolution padding attributes should have the same extent")
  /\ SimplifyExpr arith_registry ex_conv2d_two_element_padding no_module
     <> Ok (Call_ (Op "nn.conv2d") [ex_x; ex_w]
              (ConvAttrsOf Conv2D (ex_conv2d_attrs "NCHW" "OIHW" [3; 3]%Z)) [] None).
Proof.
  split; [vm_compute; reflexivity | vm_compute; discriminate].
Qed.

(** ** Reshape fusion *)

Lemma collect_newshape_constants (dims acc : list Z) :
  SimplifyReshape.collect_newshape (map IntImm dims) acc = (true, acc ++ dims).
Proof.
  revert acc; induction dims as [|d dims IH]; intros acc; simpl.
  - rewrite app_nil_r. reflexivity.
  - rewrite IH, <- app_assoc. reflexivity.
Qed.

Lemma collect_newshape_dynamic (shape : list PrimExpr) (acc : list Z) :
  (exists dim, In dim shape /\ as_IntImmNode dim = None) ->
  fst (SimplifyReshape.collect_newshape shape acc) = false.
Proof.
  revert acc; induction shape as [|d shape IH]; intros acc [dim [Hin Hdyn]].
  - contradiction.
  - simpl. destruct (as_IntImmNode d) as [v|] eqn:Ed; [| reflexivity].
    apply IH. exists dim. split; [| assumption].
    destruct Hin as [-> | Hin]; [congruence | assumption].
Qed.

(** What a match of the rule's pattern looks like: a reshape or reverse
    reshape whose only argument is one too, with the innermost operand
    bound to [x_]. *)
Lemma reshape_match_inv (reg : string -> string -> option ObjectRef)
    (post : Expr) (nm : NodeMap) :
  Match reg (SimplifyReshape.pattern_ registered_SimplifyReshape) post [] = Some nm ->
  exists n1 n2 x a1 a2 ta1 ta2 sp1 sp2 ty1 ty2,
    post = Call (Op n1) [Call (Op n2) [x] a2 ta2 sp2 ty2] a1 ta1 sp1 ty1
    /\ (n1 = "reshape" \/ n1 = "contrib_reverse_reshape")
    /\ (n2 = "reshape" \/ n2 = "contrib_reverse_reshape")
    /\ Map_at nm (SimplifyReshape.x_ registered_SimplifyReshape) = Ok [x].
Proof.
  intros H. invert_match H.
  all: inversion H; subst; clear H.
  all: do 11 eexists; split; [reflexivity |]; repeat split; auto.
Qed.

(** C4: on a matched pair of nested reshapes, the callback returns one
    reshape of the innermost operand to the shape of the outer call's
    checked type when every dimension of that shape is an integer
    constant, and the unchanged [post] node when some dimension is not. *)
Theorem reshape_fusion
    (reg : string -> string -> option ObjectRef) (pre post : Expr) (nm : NodeMap)
    (op1 op2 x : Expr) (a1 a2 : Attrs) (ta1 ta2 : list Ty) (sp1 sp2 : Span)
    (ty1 ty2 : option Ty) (shape : list PrimExpr) (dtype : DataType) :
  post = Call op1 [Call op2 [x] a2 ta2 sp2 ty2] a1 ta1 sp1 ty1 ->
  Match reg (SimplifyReshape.pattern_ registered_SimplifyReshape) post [] = Some nm ->
  get_checked_type_ pre = Some (TensorType shape dtype) ->
  (forall dims,
      shape = map IntImm dims ->
      SimplifyReshape.callback registered_SimplifyReshape pre post nm
      = Ok (MakeReshape x dims))
  /\ ((exists dim, In dim shape /\ as_IntImmNode dim = None) ->
      SimplifyReshape.callback registered_SimplifyReshape pre post nm = Ok post).
Proof.
  intros Hpost HM Hty.
  destruct (reshape_match_inv _ _ _ HM)
    as (n1 & n2 & x' & a1' & a2' & ta1' & ta2' & sp1' & sp2' & ty1' & ty2'
        & Hpost' & _ & _ & Hx).
  rewrite Hpost in Hpost'. inversion Hpost'; subst x'. clear Hpost'.
  unfold SimplifyReshape.callback, checked_type.
  rewrite Hx, Hty. simpl.
  split.
  - intros dims ->. rewrite collect_newshape_constants. reflexivity.
  - intros Hdyn. apply (collect_newshape_dynamic _ []) in Hdyn.
    destruct (SimplifyReshape.collect_newshape shape []) as [const_shape newshape].
    simpl in Hdyn. subst const_shape. reflexivity.
Qed.

Lemma reshape_fusion_witness :
  SimplifyReshape.callback registered_SimplifyReshape ex_reshape_pair ex_reshape_pair
    (reshape_bindings ex_reshape_pair)
  = Ok (MakeReshape ex_v [6; 4]%Z).
Proof.
  apply (proj1 (reshape_fusion arith_registry ex_reshape_pair ex_reshape_pair
                  (reshape_bindings ex_reshape_pair)
                  (Op "reshape") (Op "reshape") ex_v
                  (ReshapeAttrsOf (mkReshapeAttrs [6; 4]%Z))
                  (ReshapeAttrsOf (mkReshapeAttrs [2; 3; 4]%Z))
                  [] [] None None (f32 [6; 4]%Z) (f32 [2; 3; 4]%Z)
                  [IntImm 6; IntImm 4] Float32 eq_refl eq_refl eq_refl)
               [6; 4]%Z eq_refl).
Defined.

(** ** Full, ones or zeros next to a broadcasting operator *)

(** X14: the sibling branches.  When [full_] is not bound and [ones_] or
    [zeros_] is, and the type guard holds, the operand put in place of
    the ones or zeros call is a scalar constant of the dtype of the whole
    expression, and the other operand keeps its side. *)
Lemma ones_zeros_constant_has_result_dtype
    (pre post : Expr) (nm : NodeMap) (call post_call : CallNode)
    (shape : list PrimExpr) (dtype : DataType) (x post_arg1 other : Expr)
    (xs : list Expr) (is_ones : bool) :
  as_CallNode pre = Some call ->
  as_TensorTypeNode (get_checked_type_ pre) = Some (shape, dtype) ->
  Map_at nm (FullElementwise.x_ registered_FullElementwise) = Ok (x :: xs) ->
  as_CallNode post = Some post_call ->
  nth_error (cn_args post_call) 1 = Some post_arg1 ->
  nth_error (cn_args call) (if same_as post_arg1 x then 1 else 0) = Some other ->
  StructuralEqual (get_checked_type_ other) (get_checked_type_ pre) = true ->
  Map_count nm (FullElementwise.full_ registered_FullElementwise) = false ->
  Map_count nm (FullElementwise.ones_ registered_FullElementwise) = is_ones ->
  (is_ones = false ->
   Map_count nm (FullElementwise.zeros_ registered_FullElementwise) = true) ->
  FullElementwise.callback registered_FullElementwise pre post nm
  = let value := MakeConstantScalar dtype (if is_ones then 1 else 0) in
    Ok (Call_ (cn_op call)
          (if same_as post_arg1 x then [value; x] else [x; value])
          (cn_attrs call) (cn_type_args call) (cn_span call)).
Proof.
  intros Hcall Htensor Hx Hpost Harg1 Hother Hguard Hfull Hones Hzeros.
  unfold FullElementwise.callback.
  rewrite Hcall, Htensor, Hx, Hpost. cbn [bindR ICHECK_ptr deref snd].
  rewrite (Array_at_head _ x xs), (Array_at_nth_error _ _ _ _ Harg1). cbn [bindR].
  destruct (same_as post_arg1 x);
    rewrite (Array_at_nth_error _ _ _ _ Hother); cbn [bindR];
    rewrite Hguard, Hfull, Hones;
    (destruct is_ones; [reflexivity | rewrite (Hzeros eq_refl); reflexivity]).
Qed.

(** C6, amended: when [full_] is bound (the match went through the full or
    full_like branch) and the constant bound to [value_] is not a scalar
    constant, the callback returns the unchanged [post] node if the type
    of the other operand differs from the type of the whole expression,
    and fails the assertion [IsConstScalar(value)] if the two types are
    equal. *)
Theorem full_non_scalar_value
    (pre post : Expr) (nm : NodeMap) (call post_call : CallNode)
    (tensor : list PrimExpr * DataType) (x post_arg1 other value : Expr)
    (xs vs : list Expr) :
  as_CallNode pre = Some call ->
  as_TensorTypeNode (get_checked_type_ pre) = Some tensor ->
  Map_at nm (FullElementwise.x_ registered_FullElementwise) = Ok (x :: xs) ->
  as_CallNode post = Some post_call ->
  nth_error (cn_args post_call) 1 = Some post_arg1 ->
  nth_error (cn_args call) (if same_as post_arg1 x then 1 else 0) = Some other ->
  Map_count nm (FullElementwise.full_ registered_FullElementwise) = true ->
  Map_at nm (FullElementwise.value_ registered_FullElementwise) = Ok (value :: vs) ->
  IsConstScalar value = false ->
  FullElementwise.callback registered_FullElementwise pre post nm
  = if StructuralEqual (get_checked_type_ other) (get_checked_type_ pre)
    then Abort (ICheckFailed "IsConstScalar(value)")
    else Ok post.
Proof.
  intros Hcall Htensor Hx Hpost Harg1 Hother Hfull Hvalue Hscalar.
  unfold FullElementwise.callback.
  rewrite Hcall, Htensor, Hx, Hpost. cbn [bindR ICHECK_ptr deref].
  rewrite (Array_at_head _ x xs), (Array_at_nth_error _ _ _ _ Harg1). cbn [bindR].
  destruct (same_as post_arg1 x);
    rewrite (Array_at_nth_error _ _ _ _ Hother); cbn [bindR];
    (destruct (StructuralEqual (get_checked_type_ other) (get_checked_type_ pre));
     [| reflexivity]);
    rewrite Hfull, Hvalue; cbn [bindR]; rewrite (Array_at_head _ value vs);
    cbn [bindR]; rewrite Hscalar; reflexivity.
Qed.

Lemma full_non_scalar_value_witness :
  FullElementwise.callback registered_FullElementwise ex_add_full_vector_broadcast
    ex_add_full_vector_broadcast (full_bindings ex_add_full_vector_broadcast)
  = Ok ex_add_full_vector_broadcast.
Proof.
  exact (full_non_scalar_value ex_add_full_vector_broadcast ex_add_full_vector_broadcast
           (full_bindings ex_add_full_vector_broadcast)
           (mkCallNode (Op "add")
              [Call (Op "full") [ex_value_vector]
                 (InitOpAttrsOf (mkInitOpAttrs (Some [2; 2]%Z) Float32)) [] None
                 (f32 [2; 2]%Z);
               ex_y [1; 2]%Z]
              NullAttrs [] None)
           (mkCallNode (Op "add")
              [Call (Op "full") [ex_value_vector]
                 (InitOpAttrsOf (mkInitOpAttrs (Some [2; 2]%Z) Float32)) [] None
                 (f32 [2; 2]%Z);
               ex_y [1; 2]%Z]
              NullAttrs [] None)
           (map IntImm [2; 2]%Z, Float32)
           (ex_y [1; 2]%Z) (ex_y [1; 2]%Z) (ex_y [1; 2]%Z) ex_value_vector [] []
           eq_refl eq_refl eq_refl eq_refl eq_refl eq_refl eq_refl eq_refl eq_refl).
Defined.


(** With a fill value that is not a scalar and an other operand of the
    type of the sum, the callback does not return the node: it fails the
    assertion. *)
Lemma full_non_scalar_value_aborts :
  Match arith_registry (FullElementwise.pattern_ registered_FullElementwise)
    ex_add_full_vector [] = Some (full_bindings ex_add_full_vector)
  /\ Map_count (full_bindings ex_add_full_vector)
       (FullElementwise.full_ registered_FullElementwise) = true
  /\ Map_at (full_bindings ex_add_full_vector)
       (FullElementwise.value_ registered_FullElementwise) = Ok [ex_value_vector]
  /\ IsConstScalar ex_value_vector = false
  /\ FullElementwise.callback registered_FullElementwise ex_add_full_vector
       ex_add_full_vector (full_bindings ex_add_full_vector)
     = Abort (ICheckFailed "IsConstScalar(value)")
  /\ FullElementwise.callback registered_FullElementwise ex_add_full_vector
       ex_add_full_vector (full_bindings ex_add_full_vector)
     <> Ok ex_add_full_vector.
Proof.
  repeat split; try (vm_compute; reflexivity).
  vm_compute. discriminate.
Qed.

(** C5: the graph [add(full(c), y)] with [c] a float64 scalar, [full]
    producing float32[2,2] and [y] of type float32[2,2].  The type guard
    holds and the rule fires, and the operand it puts in place of the
    [full] is [c] itself: a constant of dtype float64 in an expression
    whose result dtype is float32. *)
Theorem full_fill_value_keeps_its_dtype :
  let e := ex_add_full ex_value_f64 (ex_y [2; 2]%Z) in
  Match arith_registry (FullElementwise.pattern_ registered_FullElementwise) e []
  = Some (full_bindings e)
  /\ as_TensorTypeNode (get_checked_type_ e) = Some (map IntImm [2; 2]%Z, Float32)
  /\ FullElementwise.callback registered_FullElementwise e e (full_bindings e)
     = Ok (Call_ (Op "add") [ex_value_f64; ex_y [2; 2]%Z] NullAttrs [] None)
  /\ SimplifyExpr arith_registry e no_module
     = Ok (Call_ (Op "add") [ex_value_f64; ex_y [2; 2]%Z] NullAttrs [] None)
  /\ ex_value_f64 <> MakeConstantScalar Float32 1.
Proof.
  repeat split; try (vm_compute; reflexivity).
  vm_compute. discriminate.
Qed.

(* ================================================================== *)
(** * Further properties                                              *)
(* ================================================================== *)

(** ** [MakeConvAttrs] and the extent of the padding *)

Lemma MakeConvAttrs_same_extent (T : ConvKind) (old : ConvAttrs) (p : list PrimExpr) :
  List.length p = List.length (padding old) ->
  SimplifyConvPad.MakeConvAttrs T (Some old) p
  = Ok (ConvAttrsOf T (set_padding old (map add_pair (combine p (padding old))))).
Proof.
  intros Hlen. unfold SimplifyConvPad.MakeConvAttrs. simpl.
  rewrite Hlen, Nat.eqb_refl. simpl.
  rewrite (combine_padding_eq _ _ Hlen). reflexivity.
Qed.

Lemma MakeConvAttrs_other_extent (T : ConvKind) (old : ConvAttrs) (p : list PrimExpr) :
  List.length p <> List.length (padding old) ->
  SimplifyConvPad.MakeConvAttrs T (Some old) p = Abort (ICheckFailed extent_message).
Proof.
  intros Hlen. unfold SimplifyConvPad.MakeConvAttrs. simpl.
  apply Nat.eqb_neq in Hlen. rewrite Hlen. reflexivity.
Qed.

(** X1: [MakeConvAttrs] succeeds exactly when the padding to add has as
    many entries as the padding of the old attributes; the new attributes
    are then the old ones with the two paddings added entry by entry.
    With another number of entries it fails its extent check, and without
    old attributes its null check. *)
Theorem MakeConvAttrs_extent (T : ConvKind) (old : ConvAttrs) (p : list PrimExpr) :
  (List.length p = List.length (padding old) ->
   SimplifyConvPad.MakeConvAttrs T (Some old) p
   = Ok (ConvAttrsOf T (set_padding old (map add_pair (combine p (padding old))))))
  /\ (List.length p <> List.length (padding old) ->
      SimplifyConvPad.MakeConvAttrs T (Some old) p = Abort (ICheckFailed extent_message))
  /\ SimplifyConvPad.MakeConvAttrs T None p = Abort (ICheckFailed "old_attrs").
Proof.
  split; [apply MakeConvAttrs_same_extent |].
  split; [apply MakeConvAttrs_other_extent | reflexivity].
Qed.

Lemma MakeConvAttrs_extent_witness :
  SimplifyConvPad.MakeConvAttrs Conv2D (Some (ex_conv2d_attrs "NCHW" "OIHW" [1; 1; 1; 1]%Z))
    (map IntImm [2; 2; 2; 2]%Z)
  = Ok (ConvAttrsOf Conv2D (ex_conv2d_attrs "NCHW" "OIHW" [3; 3; 3; 3]%Z)).
Proof.
  exact (proj1 (MakeConvAttrs_extent Conv2D (ex_conv2d_attrs "NCHW" "OIHW" [1; 1; 1; 1]%Z)
                  (map IntImm [2; 2; 2; 2]%Z))
               eq_refl).
Defined.

(** ** [GetAttrs]: the padding it extracts *)

Lemma concat_map_pick (A B : Type) (keep : A -> bool) (g : A -> B) (l : list A) :
  List.concat (map (fun a => if keep a then [g a] else []) l)
  = map g (filter keep l).
Proof.
  induction l as [|a l IH]; simpl; [reflexivity |].
  destruct (keep a); simpl; rewrite IH; reflexivity.
Qed.

Lemma image_rows_filter (layout : string) (pad_width : list (list Z)) :
  image_rows layout pad_width
  = map (fun i => nth i pad_width [])
        (filter (SimplifyConvPad.image_dims_count layout) (seq 0 (List.length pad_width))).
Proof.
  unfold image_rows. rewrite flat_map_concat_map. apply concat_map_pick.
Qed.

Lemma image_rows_In (layout : string) (pad_width : list (list Z)) (i : nat) :
  i < List.length pad_width ->
  SimplifyConvPad.image_dims_count layout i = true ->
  In (nth i pad_width []) (image_rows layout pad_width).
Proof.
  intros Hi Himg. rewrite image_rows_filter. apply (in_map (fun k => nth k pad_width [])).
  apply filter_In. split; [apply in_seq; lia | assumption].
Qed.

Lemma image_rows_incl (layout : string) (pad_width : list (list Z)) (row : list Z) :
  In row (image_rows layout pad_width) -> In row pad_width.
Proof.
  intros Hin. rewrite image_rows_filter in Hin.
  apply in_map_iff in Hin. destruct Hin as (i & <- & Hi).
  apply filter_In in Hi. destruct Hi as [Hi _]. apply in_seq in Hi.
  apply nth_In. lia.
Qed.

Lemma spatial_padding_flat_map (layout : string) (pad_width : list (list Z))
    (row0 : list Z) :
  nth_error pad_width 0 = Some row0 ->
  (forall row, In row (image_rows layout pad_width) ->
               List.length row0 <= List.length row) ->
  SimplifyConvPad.spatial_padding layout pad_width
  = Ok (flat_map (image_column layout pad_width) (seq 0 (List.length row0))).
Proof.
  intros Hrow0 Hrows.
  unfold SimplifyConvPad.spatial_padding.
  rewrite (Array_at_nth_error _ _ _ _ Hrow0). cbn [bindR].
  rewrite (mapR_ok_map _ _ _ (image_column layout pad_width)).
  - cbn [bindR]. rewrite flat_map_concat_map. reflexivity.
  - intros j Hj. apply in_seq in Hj.
    rewrite (mapR_ok_map _ _ _
               (fun i => if SimplifyConvPad.image_dims_count layout i
                         then [IntImm (nth j (nth i pad_width []) 0%Z)] else [])).
    + cbn [bindR]. f_equal.
      rewrite (concat_map_pick _ _ (SimplifyConvPad.image_dims_count layout)
                 (fun i => IntImm (nth j (nth i pad_width []) 0%Z))).
      unfold image_column. rewrite image_rows_filter, map_map. reflexivity.
    + intros i Hi. apply in_seq in Hi.
      destruct (SimplifyConvPad.image_dims_count layout i) eqn:Himg; [| reflexivity].
      unfold Array_at.
      rewrite (nth_error_nth' pad_width []) by lia. cbn [bindR].
      rewrite (nth_error_nth' (nth i pad_width []) 0%Z); [reflexivity |].
      specialize (Hrows _ (image_rows_In layout pad_width i ltac:(lia) Himg)). lia.
Qed.

Lemma flat_map_length_const (A B : Type) (f : A -> list B) (l : list A) (n : nat) :
  (forall a, In a l -> List.length (f a) = n) ->
  List.length (flat_map f l) = List.length l * n.
Proof.
  induction l as [|a l IH]; intros H; simpl; [reflexivity |].
  rewrite length_app, (H a (or_introl eq_refl)), IH; [lia |].
  intros; apply H; right; assumption.
Qed.

Lemma extracted_length (layout : string) (pad_width : list (list Z)) (k : nat) :
  List.length (flat_map (image_column layout pad_width) (seq 0 k))
  = k * List.length (image_rows layout pad_width).
Proof.
  rewrite (flat_map_length_const _ _ _ _ (List.length (image_rows layout pad_width))).
  - rewrite length_seq. reflexivity.
  - intros j _. unfold image_column. apply length_map.
Qed.

(** X2: when every image row of [pad_width] is at least as long as its
    first row, the padding [GetAttrs] extracts is, for every position of
    the first row in turn, the entry at that position of each image row in
    layout order; it has as many entries as the first row has positions
    times the number of image rows. *)
Theorem spatial_padding_columns (layout : string) (pad_width : list (list Z))
    (row0 : list Z) :
  nth_error pad_width 0 = Some row0 ->
  (forall row, In row (image_rows layout pad_width) ->
               List.length row0 <= List.length row) ->
  SimplifyConvPad.spatial_padding layout pad_width
  = Ok (flat_map (image_column layout pad_width) (seq 0 (List.length row0)))
  /\ List.length (flat_map (image_column layout pad_width) (seq 0 (List.length row0)))
     = List.length row0 * List.length (image_rows layout pad_width).
Proof.
  intros Hrow0 Hrows.
  split; [apply spatial_padding_flat_map; assumption | apply extracted_length].
Qed.

Lemma spatial_padding_columns_witness :
  SimplifyConvPad.spatial_padding "NCHW" (pad_width pad_2_2)
  = Ok (map IntImm [2; 2; 2; 2]%Z).
Proof.
  refine (proj1 (spatial_padding_columns "NCHW" (pad_width pad_2_2) [0; 0]%Z eq_refl _)).
  intros row Hin. vm_compute in Hin.
  destruct Hin as [<- | [<- | []]]; simpl; lia.
Defined.

Lemma mapR_ok_or_abort (A B : Type) (f : A -> Result B) (e : Error) (l : list A) :
  (forall x, In x l -> (exists y, f x = Ok y) \/ f x = Abort e) ->
  (exists ys, mapR f l = Ok ys) \/ mapR f l = Abort e.
Proof.
  induction l as [|a l IH]; intros H; simpl.
  - left; eexists; reflexivity.
  - destruct (H a (or_introl eq_refl)) as [[y Hy] | Ha]; rewrite ?Hy, ?Ha; simpl.
    + destruct IH as [[ys Hys] | Hl]; [intros; apply H; right; assumption | |];
        rewrite ?Hys, ?Hl; simpl; [left; eexists; reflexivity | right; reflexivity].
    + right; reflexivity.
Qed.

Lemma mapR_abort (A B : Type) (f : A -> Result B) (e : Error) (l : list A) :
  (forall x, In x l -> (exists y, f x = Ok y) \/ f x = Abort e) ->
  (exists x, In x l /\ f x = Abort e) ->
  mapR f l = Abort e.
Proof.
  intros Hall (x & Hin & Hx).
  destruct (mapR_ok_or_abort _ _ f e l Hall) as [[ys Hys] | H]; [| assumption].
  exfalso. apply mapR_Forall2 in Hys.
  clear Hall. induction Hys as [|a y l' ys' Ha _ IH]; [contradiction |].
  destruct Hin as [-> | Hin]; [congruence | auto].
Qed.

Lemma Array_at_ok_or_IndexError (A : Type) (l : list A) (i : nat) :
  (exists a, Array_at l i = Ok a) \/ Array_at l i = Abort IndexError.
Proof.
  unfold Array_at. destruct (nth_error l i); [left; eexists; reflexivity | right; reflexivity].
Qed.

(** X3: the padding cannot be extracted from an empty [pad_width], nor
    from one in which the row of some image dimension is shorter than the
    first row: indexing the array fails. *)
Theorem spatial_padding_short_row (layout : string) (pad_width : list (list Z)) :
  (pad_width = [] ->
   SimplifyConvPad.spatial_padding layout pad_width = Abort IndexError)
  /\ (forall row0 i,
        nth_error pad_width 0 = Some row0 ->
        i < List.length pad_width ->
        SimplifyConvPad.image_dims_count layout i = true ->
        List.length (nth i pad_width []) < List.length row0 ->
        SimplifyConvPad.spatial_padding layout pad_width = Abort IndexError).
Proof.
  split; [intros ->; reflexivity |].
  intros row0 i Hrow0 Hi Himg Hshort.
  unfold SimplifyConvPad.spatial_padding.
  rewrite (Array_at_nth_error _ _ _ _ Hrow0). cbn [bindR].
  set (inner := fun j : nat =>
         mapR (fun i0 : nat =>
                 if SimplifyConvPad.image_dims_count layout i0
                 then (row <- Array_at pad_width i0 ;;
                       v <- Array_at row j ;; Ok [IntImm v])%res
                 else Ok []) (seq 0 (List.length pad_width))).
  assert (Hinner : forall j, (exists ys, inner j = Ok ys) \/ inner j = Abort IndexError).
  { intros j. apply mapR_ok_or_abort. intros i0 _.
    destruct (SimplifyConvPad.image_dims_count layout i0); [| left; eexists; reflexivity].
    destruct (Array_at_ok_or_IndexError _ pad_width i0) as [[row ->] | ->];
      [| right; reflexivity].
    cbn [bindR].
    destruct (Array_at_ok_or_IndexError _ row j) as [[v ->] | ->];
      [left; eexists; reflexivity | right; reflexivity]. }
  rewrite (mapR_abort _ _ _ IndexError); [reflexivity | |].
  - intros j _. fold (inner j).
    destruct (Hinner j) as [[ys ->] | ->];
      [left; eexists; reflexivity | right; reflexivity].
  - exists (List.length (nth i pad_width [])). split; [apply in_seq; lia |].
    fold (inner (List.length (nth i pad_width []))).
    unfold inner. rewrite (mapR_abort _ _ _ IndexError); [reflexivity | |].
    + intros i0 _.
      destruct (SimplifyConvPad.image_dims_count layout i0); [| left; eexists; reflexivity].
      destruct (Array_at_ok_or_IndexError _ pad_width i0) as [[row ->] | ->];
        [| right; reflexivity].
      cbn [bindR].
      destruct (Array_at_ok_or_IndexError _ row (List.length (nth i pad_width [])))
        as [[v ->] | ->];
        [left; eexists; reflexivity | right; reflexivity].
    + exists i. split; [apply in_seq; lia |].
      rewrite Himg. unfold Array_at.
      rewrite (nth_error_nth' pad_width []) by lia. cbn [bindR].
      rewrite (proj2 (nth_error_None _ _) (Nat.le_refl _)). reflexivity.
Qed.

Lemma spatial_padding_short_row_witness :
  SimplifyConvPad.spatial_padding "NCHW" pad_width_ragged = Abort IndexError.
Proof.
  refine (proj2 (spatial_padding_short_row "NCHW" pad_width_ragged)
                [0; 0]%Z 2 eq_refl _ eq_refl _).
  - unfold pad_width_ragged; simpl; lia.
  - unfold pad_width_ragged; simpl; lia.
Defined.

Lemma string_get_Some (s : string) (i : nat) :
  i < String.length s -> exists c, String.get i s = Some c.
Proof.
  revert i; induction s as [|a s IH]; intros i Hi; simpl in Hi; [lia |].
  destruct i as [|i]; simpl; [eexists; reflexivity | apply IH; lia].
Qed.

Lemma pads_non_spatial_inv (layout : string) (pad_width : list (list Z)) :
  String.length layout = List.length pad_width ->
  SimplifyConvPad.pads_non_spatial layout pad_width = true ->
  pads_outside_image_dims layout pad_width.
Proof.
  intros Hlen H. unfold SimplifyConvPad.pads_non_spatial in H.
  apply existsb_exists in H. destruct H as (i & Hi & H).
  apply in_seq in Hi. apply andb_true_iff in H. destruct H as [Himg Hnz].
  apply existsb_exists in Hnz. destruct Hnz as (v & Hv & Hnz).
  destruct (string_get_Some layout i ltac:(lia)) as [c Hc].
  exists i, (nth i pad_width []), v, c.
  split; [apply nth_error_nth'; lia |].
  split; [assumption |].
  split; [apply Z.eqb_neq, negb_true_iff; assumption |].
  split; [assumption |].
  unfold SimplifyConvPad.image_dims_count in Himg. rewrite Hc in Himg.
  apply negb_true_iff in Himg.
  apply orb_false_iff in Himg. destruct Himg as [Himg HD].
  apply orb_false_iff in Himg. destruct Himg as [HH HW].
  apply Ascii.eqb_neq in HH, HW, HD. auto.
Qed.

Lemma pads_non_spatial_false (layout : string) (pad_width : list (list Z)) :
  String.length layout = List.length pad_width ->
  ~ pads_outside_image_dims layout pad_width ->
  SimplifyConvPad.pads_non_spatial layout pad_width = false.
Proof.
  intros Hlen Hno.
  destruct (SimplifyConvPad.pads_non_spatial layout pad_width) eqn:E; [| reflexivity].
  exfalso. apply Hno. apply (pads_non_spatial_inv _ _ Hlen). assumption.
Qed.

(** X4: for a layout with as many characters as [pad_width] has rows, the
    test with which [GetAttrs] gives up holds exactly when [pad_width]
    has a non-zero entry on a dimension whose layout character is none of
    'H', 'W', 'D'. *)
Theorem pads_non_spatial_iff (layout : string) (pad_width : list (list Z)) :
  String.length layout = List.length pad_width ->
  (SimplifyConvPad.pads_non_spatial layout pad_width = true
   <-> pads_outside_image_dims layout pad_width).
Proof.
  intros Hlen. split; [apply pads_non_spatial_inv; assumption | apply pads_non_spatial_true].
Qed.

Lemma pads_non_spatial_iff_witness :
  pads_outside_image_dims "NCHW" (pad_width pad_channel).
Proof.
  exact (proj1 (pads_non_spatial_iff "NCHW" (pad_width pad_channel) eq_refl) eq_refl).
Defined.

(** ** The callback of [SimplifyConvPad] on a constant zero pad *)

(** The callback on a matched convolution over a constant zero pad whose
    layout has the extent of [pad_width]. *)
Lemma conv_pad_callback_constant_zero
    (reg : string -> string -> option ObjectRef) (pre post : Expr) (nm : NodeMap)
    (T : ConvKind) (x w : Expr) (param : PadAttrs) (c : ConvAttrs) (pta ta : list Ty)
    (psp sp : Span) (pty ty : option Ty) :
  post = Call (Op (conv_op_name T))
              [Call (Op "nn.pad") [x] (PadAttrsOf param) pta psp pty; w]
              (ConvAttrsOf T c) ta sp ty ->
  Match reg (SimplifyConvPad.pattern_ registered_SimplifyConvPad) post [] = Some nm ->
  pad_mode param = "constant" ->
  SFeqb (pad_value param) (S754_zero false) = true ->
  String.length (data_layout c) = List.length (pad_width param) ->
  SimplifyConvPad.callback registered_SimplifyConvPad pre post nm =
  (if SimplifyConvPad.pads_non_spatial (data_layout c) (pad_width param) then Ok post
   else
     (padding <- SimplifyConvPad.spatial_padding (data_layout c) (pad_width param) ;;
      attrs <- SimplifyConvPad.MakeConvAttrs T (Some c) padding ;;
      if negb (defined attrs) then Ok post
      else Ok (Call_ (Op (conv_op_name T)) [x; w] attrs ta sp)))%res.
Proof.
  intros Hpost HM Hmode Hval Hlen.
  rewrite (conv_pad_callback_matched reg pre _ _ _ _ _ _ _ _ _ _ _ _ _ Hpost HM).
  rewrite as_ConvAttrs_same. cbn [bindR ICHECK_ptr as_PadAttrs].
  rewrite Hmode, Hval. change (String.eqb "constant" "constant") with true. cbn [andb].
  unfold SimplifyConvPad.GetAttrs. cbn [bindR ICHECK_ptr].
  rewrite Hlen, Nat.eqb_refl. cbn [bindR ICHECK].
  destruct (SimplifyConvPad.pads_non_spatial (data_layout c) (pad_width param));
    [reflexivity |].
  destruct (SimplifyConvPad.spatial_padding (data_layout c) (pad_width param));
    reflexivity.
Qed.

Lemma conv_pad_callback_fuses
    (reg : string -> string -> option ObjectRef) (pre post : Expr) (nm : NodeMap)
    (T : ConvKind) (x w : Expr) (param : PadAttrs) (c : ConvAttrs) (pta ta : list Ty)
    (psp sp : Span) (pty ty : option Ty) (row0 : list Z) :
  post = Call (Op (conv_op_name T))
              [Call (Op "nn.pad") [x] (PadAttrsOf param) pta psp pty; w]
              (ConvAttrsOf T c) ta sp ty ->
  Match reg (SimplifyConvPad.pattern_ registered_SimplifyConvPad) post [] = Some nm ->
  pad_mode param = "constant" ->
  SFeqb (pad_value param) (S754_zero false) = true ->
  String.length (data_layout c) = List.length (pad_width param) ->
  ~ pads_outside_image_dims (data_layout c) (pad_width param) ->
  nth_error (pad_width param) 0 = Some row0 ->
  (forall row, In row (image_rows (data_layout c) (pad_width param)) ->
               List.length row0 <= List.length row) ->
  List.length (padding c)
  = List.length row0 * List.length (image_rows (data_layout c) (pad_width param)) ->
  SimplifyConvPad.callback registered_SimplifyConvPad pre post nm
  = Ok (Call_ (Op (conv_op_name T)) [x; w]
          (ConvAttrsOf T
             (set_padding c
                (map add_pair
                   (combine (flat_map (image_column (data_layout c) (pad_width param))
                                      (seq 0 (List.length row0)))
                            (padding c)))))
          ta sp).
Proof.
  intros Hpost HM Hmode Hval Hlen Hno Hrow0 Hrows Hp.
  rewrite (conv_pad_callback_constant_zero reg pre post nm T x w param c pta ta psp sp pty ty
             Hpost HM Hmode Hval Hlen).
  rewrite (pads_non_spatial_false _ _ Hlen Hno).
  rewrite (spatial_padding_flat_map _ _ _ Hrow0 Hrows). cbn [bindR].
  rewrite MakeConvAttrs_same_extent by (rewrite extracted_length; symmetry; assumption).
  reflexivity.
Qed.

(** X5: on a matched convolution over a constant zero pad that pads image
    dimensions only, with a layout of the extent of [pad_width] and image
    rows as long as the first row, the callback fuses exactly when the
    convolution's own padding has one entry per extracted pad amount:
    then it returns the convolution over the pad's input with the two
    paddings added, and otherwise it fails the extent check of
    [MakeConvAttrs]. *)
Theorem conv_pad_fuses_iff_padding_extent
    (reg : string -> string -> option ObjectRef) (pre post : Expr) (nm : NodeMap)
    (T : ConvKind) (x w : Expr) (param : PadAttrs) (c : ConvAttrs) (pta ta : list Ty)
    (psp sp : Span) (pty ty : option Ty) (row0 : list Z) :
  post = Call (Op (conv_op_name T))
              [Call (Op "nn.pad") [x] (PadAttrsOf param) pta psp pty; w]
              (ConvAttrsOf T c) ta sp ty ->
  Match reg (SimplifyConvPad.pattern_ registered_SimplifyConvPad) post [] = Some nm ->
  pad_mode param = "constant" ->
  SFeqb (pad_value param) (S754_zero false) = true ->
  String.length (data_layout c) = List.length (pad_width param) ->
  ~ pads_outside_image_dims (data_layout c) (pad_width param) ->
  nth_error (pad_width param) 0 = Some row0 ->
  (forall row, In row (image_rows (data_layout c) (pad_width param)) ->
               List.length row0 <= List.length row) ->
  let extracted :=
    flat_map (image_column (data_layout c) (pad_width param)) (seq 0 (List.length row0)) in
  (List.length (padding c)
   = List.length row0 * List.length (image_rows (data_layout c) (pad_width param)) ->
   SimplifyConvPad.callback registered_SimplifyConvPad pre post nm
   = Ok (Call_ (Op (conv_op_name T)) [x; w]
           (ConvAttrsOf T (set_padding c (map add_pair (combine extracted (padding c)))))
           ta sp))
  /\ (List.length (padding c)
      <> List.length row0 * List.length (image_rows (data_layout c) (pad_width param)) ->
      SimplifyConvPad.callback registered_SimplifyConvPad pre post nm
      = Abort (ICheckFailed extent_message)).
Proof.
  intros Hpost HM Hmode Hval Hlen Hno Hrow0 Hrows extracted.
  split; intros Hp.
  - exact (conv_pad_callback_fuses reg pre post nm T x w param c pta ta psp sp pty ty row0
             Hpost HM Hmode Hval Hlen Hno Hrow0 Hrows Hp).
  - rewrite (conv_pad_callback_constant_zero reg pre post nm T x w param c pta ta psp sp
               pty ty Hpost HM Hmode Hval Hlen).
    rewrite (pads_non_spatial_false _ _ Hlen Hno).
    rewrite (spatial_padding_flat_map _ _ _ Hrow0 Hrows). cbn [bindR].
    rewrite MakeConvAttrs_other_extent; [reflexivity |].
    rewrite extracted_length. intros E. apply Hp. symmetry. exact E.
Qed.

Lemma conv_pad_fuses_iff_padding_extent_witness :
  SimplifyConvPad.callback registered_SimplifyConvPad ex_conv2d_two_element_padding
    ex_conv2d_two_element_padding (conv_pad_bindings ex_conv2d_two_element_padding)
  = Abort (ICheckFailed extent_message).
Proof.
  refine (proj2 (conv_pad_fuses_iff_padding_extent arith_registry
                   ex_conv2d_two_element_padding ex_conv2d_two_element_padding
                   (conv_pad_bindings ex_conv2d_two_element_padding)
                   Conv2D ex_x ex_w pad_2_2 (ex_conv2d_attrs "NCHW" "OIHW" [1; 1]%Z)
                   [] [] None None (f32 [1; 3; 14; 14]%Z) (f32 [1; 8; 14; 14]%Z)
                   [0; 0]%Z eq_refl _ eq_refl eq_refl eq_refl _ eq_refl _) _).
  - vm_compute. reflexivity.
  - intros H. apply pads_non_spatial_true in H. vm_compute in H. discriminate H.
  - intros row Hin. vm_compute in Hin.
    destruct Hin as [<- | [<- | []]]; simpl; lia.
  - vm_compute. discriminate.
Defined.

Lemma add_zero_constants (extracted : list PrimExpr) (orig : list Z) :
  Forall (fun e => e = IntImm 0) extracted ->
  List.length extracted = List.length orig ->
  map add_pair (combine extracted (map IntImm orig)) = map IntImm orig.
Proof.
  intros H. revert orig.
  induction H as [|e l -> _ IH]; intros [|o orig] Hlen; simpl in *; try discriminate;
    [reflexivity |].
  rewrite IH by congruence. reflexivity.
Qed.

Lemma set_padding_same (c : ConvAttrs) : set_padding c (padding c) = c.
Proof. destruct c; reflexivity. Qed.

(** X6: a constant zero pad that adds nothing, with rows of one length, under
    a convolution with constant padding of the matching extent is
    dropped: the callback returns the convolution over the pad's input
    with its attributes unchanged. *)
Theorem conv_pad_zero_pad_is_dropped
    (reg : string -> string -> option ObjectRef) (pre post : Expr) (nm : NodeMap)
    (T : ConvKind) (x w : Expr) (param : PadAttrs) (c : ConvAttrs) (pta ta : list Ty)
    (psp sp : Span) (pty ty : option Ty) (row0 : list Z) (orig : list Z) :
  post = Call (Op (conv_op_name T))
              [Call (Op "nn.pad") [x] (PadAttrsOf param) pta psp pty; w]
              (ConvAttrsOf T c) ta sp ty ->
  Match reg (SimplifyConvPad.pattern_ registered_SimplifyConvPad) post [] = Some nm ->
  pad_mode param = "constant" ->
  SFeqb (pad_value param) (S754_zero false) = true ->
  String.length (data_layout c) = List.length (pad_width param) ->
  nth_error (pad_width param) 0 = Some row0 ->
  (forall row, In row (pad_width param) ->
               List.length row = List.length row0 /\ Forall (fun v => v = 0%Z) row) ->
  padding c = map IntImm orig ->
  List.length orig
  = List.length row0 * List.length (image_rows (data_layout c) (pad_width param)) ->
  SimplifyConvPad.callback registered_SimplifyConvPad pre post nm
  = Ok (Call_ (Op (conv_op_name T)) [x; w] (ConvAttrsOf T c) ta sp).
Proof.
  intros Hpost HM Hmode Hval Hlen Hrow0 Hzero Hpad Horig.
  rewrite (conv_pad_callback_fuses reg pre post nm T x w param c pta ta psp sp pty ty row0
             Hpost HM Hmode Hval Hlen).
  - do 3 f_equal. rewrite Hpad, add_zero_constants.
    + rewrite <- Hpad. apply set_padding_same.
    + apply Forall_forall. intros e He.
      apply in_flat_map in He. destruct He as (j & Hj & He).
      unfold image_column in He. apply in_map_iff in He.
      destruct He as (row & <- & Hrow).
      destruct (Hzero _ (image_rows_incl _ _ _ Hrow)) as [_ Hall].
      f_equal. destruct (nth_in_or_default j row 0%Z) as [Hin | ->]; [| reflexivity].
      rewrite Forall_forall in Hall. apply Hall. assumption.
    + rewrite extracted_length. symmetry. assumption.
  - intros (i & row & v & ch & Hrow & Hv & Hnz & _).
    apply nth_error_In in Hrow. destruct (Hzero _ Hrow) as [_ Hall].
    rewrite Forall_forall in Hall. apply Hnz. apply Hall. assumption.
  - assumption.
  - intros row Hin. destruct (Hzero _ (image_rows_incl _ _ _ Hin)) as [-> _]. lia.
  - rewrite Hpad, length_map. assumption.
Qed.

Lemma conv_pad_zero_pad_is_dropped_witness :
  SimplifyConvPad.callback registered_SimplifyConvPad ex_conv2d_zero_pad ex_conv2d_zero_pad
    (conv_pad_bindings ex_conv2d_zero_pad)
  = Ok (Call_ (Op "nn.conv2d") [ex_x; ex_w]
          (ConvAttrsOf Conv2D (ex_conv2d_attrs "NCHW" "OIHW" [1; 1; 1; 1]%Z)) [] None).
Proof.
  refine (conv_pad_zero_pad_is_dropped arith_registry ex_conv2d_zero_pad ex_conv2d_zero_pad
            (conv_pad_bindings ex_conv2d_zero_pad)
            Conv2D ex_x ex_w pad_none (ex_conv2d_attrs "NCHW" "OIHW" [1; 1; 1; 1]%Z)
            [] [] None None (f32 [1; 3; 10; 10]%Z) (f32 [1; 8; 10; 10]%Z)
            [0; 0]%Z [1; 1; 1; 1]%Z eq_refl _ eq_refl eq_refl eq_refl eq_refl _ eq_refl _).
  - vm_compute. reflexivity.
  - intros row Hin. simpl in Hin.
    destruct Hin as [<- | [<- | [<- | [<- | []]]]]; (split; [reflexivity | repeat constructor]).
  - vm_compute. reflexivity.
Defined.

Lemma list_all_In (A : Type) (P : A -> Prop) (l : list A) :
  list_all P l -> forall a, In a l -> P a.
Proof.
  induction 1 as [|b Hb r Hr IH]; intros a Hin; [contradiction |].
  destruct Hin as [<- | Hin]; [assumption | apply IH; assumption].
Qed.

Lemma Expr_not_own_argument (x : Expr) :
  forall op args a ta sp ty, In x args -> x <> Call op args a ta sp ty.
Proof.
  induction x as [n t | d t | n | o IHo xs IHxs at_ ta' sp' t | fs IH t | e IHe i t
                 | ps IHps bd IHbd t];
    intros op args a ta sp ty Hin E; try discriminate E.
  inversion E; subst.
  exact (list_all_In _ _ _ IHxs _ Hin _ _ _ _ _ _ Hin eq_refl).
Qed.

(** X7: on a matched convolution over a pad, the callback returns the
    unchanged [post] node only for one of the three reasons the code
    gives: the pad's mode is not "constant", its value is not zero, or it
    pads a dimension that is no image dimension. *)
Theorem conv_pad_unchanged_only_if
    (reg : string -> string -> option ObjectRef) (pre post : Expr) (nm : NodeMap)
    (T : ConvKind) (x w : Expr) (param : PadAttrs) (c : ConvAttrs) (pta ta : list Ty)
    (psp sp : Span) (pty ty : option Ty) :
  post = Call (Op (conv_op_name T))
              [Call (Op "nn.pad") [x] (PadAttrsOf param) pta psp pty; w]
              (ConvAttrsOf T c) ta sp ty ->
  Match reg (SimplifyConvPad.pattern_ registered_SimplifyConvPad) post [] = Some nm ->
  SimplifyConvPad.callback registered_SimplifyConvPad pre post nm = Ok post ->
  pad_mode param <> "constant"
  \/ SFeqb (pad_value param) (S754_zero false) = false
  \/ pads_outside_image_dims (data_layout c) (pad_width param).
Proof.
  intros Hpost HM Hr.
  destruct (String.eqb (pad_mode param) "constant") eqn:Emode;
    [| left; apply String.eqb_neq; assumption].
  destruct (SFeqb (pad_value param) (S754_zero false)) eqn:Eval;
    [| right; left; reflexivity].
  right; right.
  apply String.eqb_eq in Emode.
  destruct (Nat.eqb (String.length (data_layout c)) (List.length (pad_width param))) eqn:Elen.
  - apply Nat.eqb_eq in Elen.
    rewrite (conv_pad_callback_constant_zero reg pre post nm T x w param c pta ta psp sp pty ty
               Hpost HM Emode Eval Elen) in Hr.
    destruct (SimplifyConvPad.pads_non_spatial (data_layout c) (pad_width param)) eqn:Ens.
    + apply (pads_non_spatial_inv _ _ Elen). assumption.
    + exfalso.
      destruct (SimplifyConvPad.spatial_padding (data_layout c) (pad_width param))
        as [extracted|]; cbn [bindR] in Hr; [| discriminate].
      destruct (SimplifyConvPad.MakeConvAttrs T (Some c) extracted) as [attrs|] eqn:Hmk;
        cbn [bindR] in Hr; [| discriminate].
      apply MakeConvAttrs_ok in Hmk. destruct Hmk as [_ ->].
      cbn [defined negb] in Hr. rewrite Hpost in Hr. inversion Hr.
      match goal with
      | H : x = Call _ _ _ _ _ _ |- _ =>
          exact (Expr_not_own_argument x _ [x] _ _ _ _ (or_introl eq_refl) H)
      end.
  - exfalso.
    rewrite (conv_pad_callback_matched reg pre _ _ _ _ _ _ _ _ _ _ _ _ _ Hpost HM) in Hr.
    rewrite as_ConvAttrs_same in Hr. cbn [bindR ICHECK_ptr as_PadAttrs] in Hr.
    rewrite Emode, Eval in Hr.
    change (String.eqb "constant" "constant") with true in Hr. cbn [andb] in Hr.
    unfold SimplifyConvPad.GetAttrs in Hr. cbn [bindR ICHECK_ptr] in Hr.
    rewrite Elen in Hr. discriminate Hr.
Qed.

Lemma conv_pad_unchanged_only_if_witness :
  pad_mode pad_channel <> "constant"
  \/ SFeqb (pad_value pad_channel) (S754_zero false) = false
  \/ pads_outside_image_dims "NCHW" (pad_width pad_channel).
Proof.
  refine (conv_pad_unchanged_only_if arith_registry ex_conv2d_channel_pad
            ex_conv2d_channel_pad (conv_pad_bindings ex_conv2d_channel_pad)
            Conv2D ex_x ex_w5 pad_channel (ex_conv2d_attrs "NCHW" "OIHW" [1; 1; 1; 1]%Z)
            [] [] None None (f32 [1; 5; 14; 14]%Z) (f32 [1; 8; 14; 14]%Z) eq_refl _ _).
  - vm_compute. reflexivity.
  - vm_compute. reflexivity.
Defined.

(** X8: on a matched convolution over a constant zero pad, a data layout
    whose number of characters differs from the number of rows of
    [pad_width] makes the callback fail the extent check of [GetAttrs],
    whatever the pad amounts are. *)
Theorem conv_pad_layout_extent_mismatch_aborts
    (reg : string -> string -> option ObjectRef) (pre post : Expr) (nm : NodeMap)
    (T : ConvKind) (x w : Expr) (param : PadAttrs) (c : ConvAttrs) (pta ta : list Ty)
    (psp sp : Span) (pty ty : option Ty) :
  post = Call (Op (conv_op_name T))
              [Call (Op "nn.pad") [x] (PadAttrsOf param) pta psp pty; w]
              (ConvAttrsOf T c) ta sp ty ->
  Match reg (SimplifyConvPad.pattern_ registered_SimplifyConvPad) post [] = Some nm ->
  pad_mode param = "constant" ->
  SFeqb (pad_value param) (S754_zero false) = true ->
  String.length (data_layout c) <> List.length (pad_width param) ->
  SimplifyConvPad.callback registered_SimplifyConvPad pre post nm
  = Abort (ICheckFailed layout_message).
Proof.
  intros Hpost HM Hmode Hval Hlen.
  rewrite (conv_pad_callback_matched reg pre _ _ _ _ _ _ _ _ _ _ _ _ _ Hpost HM).
  rewrite as_ConvAttrs_same. cbn [bindR ICHECK_ptr as_PadAttrs].
  rewrite Hmode, Hval. change (String.eqb "constant" "constant") with true. cbn [andb].
  unfold SimplifyConvPad.GetAttrs. cbn [bindR ICHECK_ptr].
  apply Nat.eqb_neq in Hlen. rewrite Hlen. reflexivity.
Qed.

Lemma conv_pad_layout_extent_mismatch_aborts_witness :
  SimplifyConvPad.callback registered_SimplifyConvPad ex_conv2d_packed ex_conv2d_packed
    (conv_pad_bindings ex_conv2d_packed)
  = Abort (ICheckFailed layout_message).
Proof.
  refine (conv_pad_layout_extent_mismatch_aborts arith_registry ex_conv2d_packed
            ex_conv2d_packed (conv_pad_bindings ex_conv2d_packed)
            Conv2D ex_x_packed ex_w_packed pad_packed_channel
            (ex_conv2d_attrs "NCHW4c" "OIHW4i4o" [0; 0; 0; 0]%Z)
            [] [] None None (f32 [1; 3; 10; 10; 4]%Z) (f32 [1; 2; 8; 8; 4]%Z)
            eq_refl _ eq_refl eq_refl _).
  - vm_compute. reflexivity.
  - vm_compute. discriminate.
Defined.

(** X9: the callback fails a null check when the attributes of a matched
    call are not of the class of its operator: the check of [param] when
    the call of [nn.pad] carries no pad attributes, and, for a constant
    zero pad, the check of [attrs] when the convolution carries no
    attributes of its kind. *)
Theorem conv_pad_foreign_attrs_abort
    (reg : string -> string -> option ObjectRef) (pre post : Expr) (nm : NodeMap)
    (T : ConvKind) (x w : Expr) (pa ca : Attrs) (pta ta : list Ty)
    (psp sp : Span) (pty ty : option Ty) :
  post = Call (Op (conv_op_name T)) [Call (Op "nn.pad") [x] pa pta psp pty; w] ca ta sp ty ->
  Match reg (SimplifyConvPad.pattern_ registered_SimplifyConvPad) post [] = Some nm ->
  (as_PadAttrs pa = None ->
   SimplifyConvPad.callback registered_SimplifyConvPad pre post nm
   = Abort (ICheckFailed "param"))
  /\ (forall param,
        pa = PadAttrsOf param ->
        pad_mode param = "constant" ->
        SFeqb (pad_value param) (S754_zero false) = true ->
        as_ConvAttrs T ca = None ->
        SimplifyConvPad.callback registered_SimplifyConvPad pre post nm
        = Abort (ICheckFailed "attrs")).
Proof.
  intros Hpost HM.
  rewrite (conv_pad_callback_matched reg pre _ _ _ _ _ _ _ _ _ _ _ _ _ Hpost HM).
  split.
  - intros ->. reflexivity.
  - intros param -> Hmode Hval ->. cbn [bindR ICHECK_ptr as_PadAttrs].
    rewrite Hmode, Hval. reflexivity.
Qed.

Lemma conv_pad_foreign_attrs_abort_witness :
  SimplifyConvPad.callback registered_SimplifyConvPad ex_conv2d_pad_without_attrs
    ex_conv2d_pad_without_attrs (conv_pad_bindings ex_conv2d_pad_without_attrs)
  = Abort (ICheckFailed "param").
Proof.
  refine (proj1 (conv_pad_foreign_attrs_abort arith_registry ex_conv2d_pad_without_attrs
                   ex_conv2d_pad_without_attrs
                   (conv_pad_bindings ex_conv2d_pad_without_attrs)
                   Conv2D ex_x ex_w NullAttrs
                   (ConvAttrsOf Conv2D (ex_conv2d_attrs "NCHW" "OIHW" [1; 1; 1; 1]%Z))
                   [] [] None None (f32 [1; 3; 14; 14]%Z) (f32 [1; 8; 14; 14]%Z)
                   eq_refl _) eq_refl).
  vm_compute. reflexivity.
Defined.

(** ** The callback of [FullElementwise] after a match *)

Ltac same_as_contra :=
  match goal with
  | E : same_as _ _ = true |- _ =>
      apply same_as_eq in E; inversion E; subst;
      repeat match goal with
             | H : same_as ?a ?a = false |- _ => rewrite same_as_refl in H; discriminate H
             end
  end.

Ltac solve_init :=
  unfold is_init_call, init_op_names; do 6 eexists; split; [reflexivity | simpl; tauto].

(** What a match of the pattern of [FullElementwise] says about the node
    and the bindings: the node is a call with two arguments, one of which
    is a call of an initialising operator and the other of which is bound
    to [x_]; [is_left] tells whether the initialising call is the first
    argument, and is the outcome of the comparison of the callback. *)
Lemma full_match_inv (reg : string -> string -> option ObjectRef) (post : Expr)
    (nm : NodeMap) :
  Match reg (FullElementwise.pattern_ registered_FullElementwise) post [] = Some nm ->
  exists op a0 a1 at_ ta sp ty (is_left : bool),
    post = Call op [a0; a1] at_ ta sp ty
    /\ Map_at nm (FullElementwise.x_ registered_FullElementwise)
       = Ok [if is_left then a1 else a0]
    /\ same_as a1 (if is_left then a1 else a0) = is_left
    /\ is_init_call (if is_left then a0 else a1)
    /\ Map_count nm (FullElementwise.full_ registered_FullElementwise)
       || Map_count nm (FullElementwise.ones_ registered_FullElementwise)
       || Map_count nm (FullElementwise.zeros_ registered_FullElementwise) = true.
Proof.
  intros H. invert_match H.
  all: inversion H; subst; clear H.
  all: do 7 eexists.
  all: first
    [ solve [ exists true; split; [reflexivity |]; split; [reflexivity |];
              split; [apply same_as_refl |]; split; [solve_init | reflexivity] ]
    | solve [ exists false; split; [reflexivity |]; split; [reflexivity |];
              split;
              [ match goal with
                | |- same_as ?a ?b = false =>
                    destruct (same_as a b) eqn:E; [exfalso; same_as_contra | reflexivity]
                end
              | split; [solve_init | reflexivity] ] ] ].
Qed.

Lemma Map_at_ok_or_IndexError (nm : NodeMap) (p : DFPattern) :
  (exists vs, Map_at nm p = Ok vs) \/ Map_at nm p = Abort IndexError.
Proof.
  unfold Map_at. destruct (NodeMap_find nm (pattern_id p));
    [left; eexists; reflexivity | right; reflexivity].
Qed.

(** X10: after a match of the pattern of [FullElementwise], one of
    [full_], [ones_] and [zeros_] is bound, so that the callback never
    reaches its last branch, the failure "Didn't find a full op while
    matching full + elementwise". *)
Theorem full_match_binds_a_branch (reg : string -> string -> option ObjectRef)
    (pre post : Expr) (nm : NodeMap) :
  Match reg (FullElementwise.pattern_ registered_FullElementwise) post [] = Some nm ->
  Map_count nm (FullElementwise.full_ registered_FullElementwise)
  || Map_count nm (FullElementwise.ones_ registered_FullElementwise)
  || Map_count nm (FullElementwise.zeros_ registered_FullElementwise) = true
  /\ FullElementwise.callback registered_FullElementwise pre post nm
     <> Abort (ICheckFailed no_full_message).
Proof.
  intros HM.
  destruct (full_match_inv reg post nm HM)
    as (op & a0 & a1 & at_ & ta & sp & ty & is_left & Hpost & Hx & Hside & Hinit & Hcount).
  split; [assumption |].
  unfold FullElementwise.callback.
  destruct (as_CallNode pre) as [call|]; cbn [bindR ICHECK_ptr]; [| discriminate].
  destruct (as_TensorTypeNode (get_checked_type_ pre)) as [tensor|];
    cbn [bindR ICHECK_ptr]; [| discriminate].
  rewrite Hx, Hpost. cbn [bindR as_CallNode deref cn_args].
  rewrite (Array_at_head _ _ []). cbn [bindR].
  change (Array_at [a0; a1] 1) with (Ok a1). cbn [bindR].
  rewrite Hside.
  assert (Harg : forall i, (exists a, Array_at (cn_args call) i = Ok a)
                           \/ Array_at (cn_args call) i = Abort IndexError)
    by (intros; apply Array_at_ok_or_IndexError).
  destruct is_left;
    [destruct (Harg 1) as [[a ->] | ->] | destruct (Harg 0) as [[a ->] | ->]];
    cbn [bindR]; try discriminate;
    (destruct (StructuralEqual (get_checked_type_ a) (get_checked_type_ pre));
     [| discriminate]);
    (destruct (Map_count nm (FullElementwise.full_ registered_FullElementwise));
     [ destruct (Map_at_ok_or_IndexError nm
                   (FullElementwise.value_ registered_FullElementwise)) as [[vs ->] | ->];
       cbn [bindR]; [| discriminate];
       destruct (Array_at_ok_or_IndexError _ vs 0) as [[v ->] | ->]; cbn [bindR];
       [| discriminate];
       destruct (IsConstScalar v); cbn [bindR ICHECK]; discriminate
     | destruct (Map_count nm (FullElementwise.ones_ registered_FullElementwise));
       [ discriminate
       | cbn [orb] in Hcount; rewrite Hcount; discriminate ] ]).
Qed.

Lemma full_match_binds_a_branch_witness :
  Map_count (full_bindings ex_add_zeros_like)
    (FullElementwise.full_ registered_FullElementwise)
  || Map_count (full_bindings ex_add_zeros_like)
       (FullElementwise.ones_ registered_FullElementwise)
  || Map_count (full_bindings ex_add_zeros_like)
       (FullElementwise.zeros_ registered_FullElementwise) = true
  /\ FullElementwise.callback registered_FullElementwise ex_add_zeros_like ex_add_zeros_like
       (full_bindings ex_add_zeros_like)
     <> Abort (ICheckFailed no_full_message).
Proof.
  refine (full_match_binds_a_branch arith_registry ex_add_zeros_like ex_add_zeros_like
            (full_bindings ex_add_zeros_like) _).
  vm_compute. reflexivity.
Defined.

(** X11: whenever the callback of [FullElementwise] returns on a matched
    node, [pre] is a call whose checked type is a tensor type, and the
    result is either the unchanged [post] node or a call of the operator
    of [pre] in which a scalar constant stands on the side of the
    initialising call and the other argument has kept its side. *)
Theorem full_elementwise_keeps_sides (reg : string -> string -> option ObjectRef)
    (pre post r : Expr) (nm : NodeMap) (op a0 a1 : Expr) (at_ : Attrs) (ta : list Ty)
    (sp : Span) (ty : option Ty) :
  post = Call op [a0; a1] at_ ta sp ty ->
  Match reg (FullElementwise.pattern_ registered_FullElementwise) post [] = Some nm ->
  FullElementwise.callback registered_FullElementwise pre post nm = Ok r ->
  exists call tensor,
    as_CallNode pre = Some call
    /\ as_TensorTypeNode (get_checked_type_ pre) = Some tensor
    /\ (r = post
        \/ exists value,
             IsConstScalar value = true
             /\ ((is_init_call a0
                  /\ r = Call_ (cn_op call) [value; a1] (cn_attrs call) (cn_type_args call)
                           (cn_span call))
                 \/ (is_init_call a1
                     /\ r = Call_ (cn_op call) [a0; value] (cn_attrs call)
                              (cn_type_args call) (cn_span call)))).
Proof.
  intros Hpost HM Hr.
  destruct (full_match_inv reg post nm HM)
    as (op' & b0 & b1 & at' & ta' & sp' & ty' & is_left & Hpost' & Hx & Hside & Hinit & _).
  rewrite Hpost in Hpost'. inversion Hpost'; subst op' b0 b1 at' ta' sp' ty'. clear Hpost'.
  unfold FullElementwise.callback in Hr.
  destruct (as_CallNode pre) as [call|]; cbn [bindR ICHECK_ptr] in Hr; [| discriminate].
  destruct (as_TensorTypeNode (get_checked_type_ pre)) as [tensor|];
    cbn [bindR ICHECK_ptr] in Hr; [| discriminate].
  exists call, tensor. split; [reflexivity |]. split; [reflexivity |].
  rewrite Hx, Hpost in Hr. cbn [bindR as_CallNode deref cn_args] in Hr.
  rewrite (Array_at_head _ _ []) in Hr. cbn [bindR] in Hr.
  change (Array_at [a0; a1] 1) with (Ok a1) in Hr. cbn [bindR] in Hr.
  rewrite Hside in Hr.
  assert (Hvalue :
    forall value_r : Result Expr,
      value_r =
        (if Map_count nm (FullElementwise.full_ registered_FullElementwise)
         then
           (vs <- Map_at nm (FullElementwise.value_ registered_FullElementwise) ;;
            value <- Array_at vs 0 ;;
            ICHECK (IsConstScalar value) "IsConstScalar(value)" ;;; Ok value)%res
         else if Map_count nm (FullElementwise.ones_ registered_FullElementwise)
              then Ok (MakeConstantScalar (snd tensor) 1)
              else if Map_count nm (FullElementwise.zeros_ registered_FullElementwise)
                   then Ok (MakeConstantScalar (snd tensor) 0)
                   else Abort (ICheckFailed no_full_message)) ->
      forall v, value_r = Ok v -> IsConstScalar v = true).
  { intros value_r -> v Hv.
    destruct (Map_count nm (FullElementwise.full_ registered_FullElementwise)).
    - destruct (Map_at nm (FullElementwise.value_ registered_FullElementwise)) as [vs|];
        cbn [bindR] in Hv; [| discriminate].
      destruct (Array_at vs 0) as [v0|]; cbn [bindR] in Hv; [| discriminate].
      destruct (IsConstScalar v0) eqn:Es; cbn [bindR ICHECK] in Hv; [| discriminate].
      inversion Hv; subst; assumption.
    - destruct (Map_count nm (FullElementwise.ones_ registered_FullElementwise));
        [inversion Hv; reflexivity |].
      destruct (Map_count nm (FullElementwise.zeros_ registered_FullElementwise));
        [inversion Hv; reflexivity | discriminate]. }
  destruct is_left.
  - destruct (Array_at (cn_args call) 1) as [a|]; cbn [bindR] in Hr; [| discriminate].
    destruct (StructuralEqual (get_checked_type_ a) (get_checked_type_ pre));
      [| left; inversion Hr; subst; reflexivity].
    match type of Hr with
    | bindR ?vr _ = _ => destruct vr as [v|] eqn:Ev; cbn [bindR] in Hr; [| discriminate];
                         pose proof (Hvalue _ (eq_sym Ev) v eq_refl) as Hs
    end.
    right. exists v. split; [assumption |].
    left. split; [assumption |]. inversion Hr; reflexivity.
  - destruct (Array_at (cn_args call) 0) as [a|]; cbn [bindR] in Hr; [| discriminate].
    destruct (StructuralEqual (get_checked_type_ a) (get_checked_type_ pre));
      [| left; inversion Hr; subst; reflexivity].
    match type of Hr with
    | bindR ?vr _ = _ => destruct vr as [v|] eqn:Ev; cbn [bindR] in Hr; [| discriminate];
                         pose proof (Hvalue _ (eq_sym Ev) v eq_refl) as Hs
    end.
    right. exists v. split; [assumption |].
    right. split; [assumption |]. inversion Hr; reflexivity.
Qed.

Lemma full_elementwise_keeps_sides_witness :
  exists call tensor,
    as_CallNode ex_add_zeros_like = Some call
    /\ as_TensorTypeNode (get_checked_type_ ex_add_zeros_like) = Some tensor
    /\ (Call_ (Op "add") [ex_y [2; 2]%Z; MakeConstantScalar Float32 0] NullAttrs [] None
        = ex_add_zeros_like
        \/ exists value,
             IsConstScalar value = true
             /\ ((is_init_call (ex_y [2; 2]%Z)
                  /\ Call_ (Op "add") [ex_y [2; 2]%Z; MakeConstantScalar Float32 0]
                       NullAttrs [] None
                     = Call_ (cn_op call) [value; ex_zeros_like (ex_y [2; 2]%Z)]
                         (cn_attrs call) (cn_type_args call) (cn_span call))
                 \/ (is_init_call (ex_zeros_like (ex_y [2; 2]%Z))
                     /\ Call_ (Op "add") [ex_y [2; 2]%Z; MakeConstantScalar Float32 0]
                          NullAttrs [] None
                        = Call_ (cn_op call) [ex_y [2; 2]%Z; value] (cn_attrs call)
                            (cn_type_args call) (cn_span call)))).
Proof.
  refine (full_elementwise_keeps_sides arith_registry ex_add_zeros_like ex_add_zeros_like
            (Call_ (Op "add") [ex_y [2; 2]%Z; MakeConstantScalar Float32 0] NullAttrs [] None)
            (full_bindings ex_add_zeros_like)
            (Op "add") (ex_y [2; 2]%Z) (ex_zeros_like (ex_y [2; 2]%Z)) NullAttrs [] None
            (f32 [2; 2]%Z) eq_refl _ _).
  - vm_compute. reflexivity.
  - vm_compute. reflexivity.
Defined.

(** ** The callback of [FullElementwise] from its bindings *)

(** X12: when the checked type of the operand other than the
    initialising call differs from the checked type of the whole
    expression, the callback returns the unchanged [post] node, whichever
    of [full_], [ones_] and [zeros_] is bound. *)
Theorem full_elementwise_guard_fails
    (pre post : Expr) (nm : NodeMap) (call post_call : CallNode)
    (tensor : list PrimExpr * DataType) (x post_arg1 other : Expr) (xs : list Expr) :
  as_CallNode pre = Some call ->
  as_TensorTypeNode (get_checked_type_ pre) = Some tensor ->
  Map_at nm (FullElementwise.x_ registered_FullElementwise) = Ok (x :: xs) ->
  as_CallNode post = Some post_call ->
  nth_error (cn_args post_call) 1 = Some post_arg1 ->
  nth_error (cn_args call) (if same_as post_arg1 x then 1 else 0) = Some other ->
  StructuralEqual (get_checked_type_ other) (get_checked_type_ pre) = false ->
  FullElementwise.callback registered_FullElementwise pre post nm = Ok post.
Proof.
  intros Hcall Htensor Hx Hpost Harg1 Hother Hguard.
  unfold FullElementwise.callback.
  rewrite Hcall, Htensor, Hx, Hpost. cbn [bindR ICHECK_ptr deref].
  rewrite (Array_at_head _ x xs), (Array_at_nth_error _ _ _ _ Harg1). cbn [bindR].
  destruct (same_as post_arg1 x);
    rewrite (Array_at_nth_error _ _ _ _ Hother); cbn [bindR];
    rewrite Hguard; reflexivity.
Qed.

Lemma full_elementwise_guard_fails_witness :
  FullElementwise.callback registered_FullElementwise
    (ex_add_full ex_value_f64 (ex_y [1; 2]%Z)) (ex_add_full ex_value_f64 (ex_y [1; 2]%Z))
    (full_bindings (ex_add_full ex_value_f64 (ex_y [1; 2]%Z)))
  = Ok (ex_add_full ex_value_f64 (ex_y [1; 2]%Z)).
Proof.
  exact (full_elementwise_guard_fails
           (ex_add_full ex_value_f64 (ex_y [1; 2]%Z))
           (ex_add_full ex_value_f64 (ex_y [1; 2]%Z))
           (full_bindings (ex_add_full ex_value_f64 (ex_y [1; 2]%Z)))
           (ex_add_full_node ex_value_f64 (ex_y [1; 2]%Z))
           (ex_add_full_node ex_value_f64 (ex_y [1; 2]%Z))
           (map IntImm [2; 2]%Z, Float32)
           (ex_y [1; 2]%Z) (ex_y [1; 2]%Z) (ex_y [1; 2]%Z) []
           eq_refl eq_refl eq_refl eq_refl eq_refl eq_refl eq_refl).
Defined.

(** X13: when [full_] is bound, the type guard holds and the constant
    bound to [value_] is a scalar constant, the callback puts that very
    constant in place of the call of full or full_like, and the other
    operand keeps its side. *)
Theorem full_scalar_value_is_reused
    (pre post : Expr) (nm : NodeMap) (call post_call : CallNode)
    (tensor : list PrimExpr * DataType) (x post_arg1 other value : Expr)
    (xs vs : list Expr) :
  as_CallNode pre = Some call ->
  as_TensorTypeNode (get_checked_type_ pre) = Some tensor ->
  Map_at nm (FullElementwise.x_ registered_FullElementwise) = Ok (x :: xs) ->
  as_CallNode post = Some post_call ->
  nth_error (cn_args post_call) 1 = Some post_arg1 ->
  nth_error (cn_args call) (if same_as post_arg1 x then 1 else 0) = Some other ->
  StructuralEqual (get_checked_type_ other) (get_checked_type_ pre) = true ->
  Map_count nm (FullElementwise.full_ registered_FullElementwise) = true ->
  Map_at nm (FullElementwise.value_ registered_FullElementwise) = Ok (value :: vs) ->
  IsConstScalar value = true ->
  FullElementwise.callback registered_FullElementwise pre post nm
  = Ok (Call_ (cn_op call)
          (if same_as post_arg1 x then [value; x] else [x; value])
          (cn_attrs call) (cn_type_args call) (cn_span call)).
Proof.
  intros Hcall Htensor Hx Hpost Harg1 Hother Hguard Hfull Hvalue Hscalar.
  unfold FullElementwise.callback.
  rewrite Hcall, Htensor, Hx, Hpost. cbn [bindR ICHECK_ptr deref].
  rewrite (Array_at_head _ x xs), (Array_at_nth_error _ _ _ _ Harg1). cbn [bindR].
  destruct (same_as post_arg1 x);
    rewrite (Array_at_nth_error _ _ _ _ Hother); cbn [bindR];
    rewrite Hguard, Hfull, Hvalue; cbn [bindR]; rewrite (Array_at_head _ value vs);
    cbn [bindR]; rewrite Hscalar; reflexivity.
Qed.

Lemma full_scalar_value_is_reused_witness :
  FullElementwise.callback registered_FullElementwise
    (ex_add_full ex_value_f64 (ex_y [2; 2]%Z)) (ex_add_full ex_value_f64 (ex_y [2; 2]%Z))
    (full_bindings (ex_add_full ex_value_f64 (ex_y [2; 2]%Z)))
  = Ok (Call_ (Op "add") [ex_value_f64; ex_y [2; 2]%Z] NullAttrs [] None).
Proof.
  exact (full_scalar_value_is_reused
           (ex_add_full ex_value_f64 (ex_y [2; 2]%Z))
           (ex_add_full ex_value_f64 (ex_y [2; 2]%Z))
           (full_bindings (ex_add_full ex_value_f64 (ex_y [2; 2]%Z)))
           (ex_add_full_node ex_value_f64 (ex_y [2; 2]%Z))
           (ex_add_full_node ex_value_f64 (ex_y [2; 2]%Z))
           (map IntImm [2; 2]%Z, Float32)
           (ex_y [2; 2]%Z) (ex_y [2; 2]%Z) (ex_y [2; 2]%Z) ex_value_f64 [] []
           eq_refl eq_refl eq_refl eq_refl eq_refl eq_refl eq_refl eq_refl eq_refl
           eq_refl).
Defined.

Lemma ones_zeros_constant_has_result_dtype_witness :
  FullElementwise.callback registered_FullElementwise ex_add_zeros_like ex_add_zeros_like
    (full_bindings ex_add_zeros_like)
  = Ok (Call_ (Op "add") [ex_y [2; 2]%Z; MakeConstantScalar Float32 0] NullAttrs [] None).
Proof.
  exact (ones_zeros_constant_has_result_dtype ex_add_zeros_like ex_add_zeros_like
           (full_bindings ex_add_zeros_like)
           (mkCallNode (Op "add") [ex_y [2; 2]%Z; ex_zeros_like (ex_y [2; 2]%Z)]
              NullAttrs [] None)
           (mkCallNode (Op "add") [ex_y [2; 2]%Z; ex_zeros_like (ex_y [2; 2]%Z)]
              NullAttrs [] None)
           (map IntImm [2; 2]%Z) Float32
           (ex_y [2; 2]%Z) (ex_zeros_like (ex_y [2; 2]%Z)) (ex_y [2; 2]%Z) [] false
           eq_refl eq_refl eq_refl eq_refl eq_refl eq_refl eq_refl eq_refl eq_refl
           (fun _ => eq_refl)).
Defined.

(** ** The callback of [SimplifyReshape] on any bindings *)

Lemma collect_newshape_true (shape : list PrimExpr) (acc out : list Z) :
  SimplifyReshape.collect_newshape shape acc = (true, out) ->
  exists dims, shape = map IntImm dims /\ out = acc ++ dims.
Proof.
  revert acc; induction shape as [|d shape IH]; intros acc H; simpl in H.
  - inversion H; subst. exists []. split; [reflexivity | rewrite app_nil_r; reflexivity].
  - destruct d as [v | | |]; simpl in H; try discriminate.
    destruct (IH _ H) as (dims & -> & ->).
    exists (v :: dims). split; [reflexivity | rewrite <- app_assoc; reflexivity].
Qed.

Lemma collect_newshape_false (shape : list PrimExpr) (acc out : list Z) :
  SimplifyReshape.collect_newshape shape acc = (false, out) ->
  exists dim, In dim shape /\ as_IntImmNode dim = None.
Proof.
  revert acc; induction shape as [|d shape IH]; intros acc H; simpl in H;
    [discriminate |].
  destruct (as_IntImmNode d) as [v|] eqn:Ed.
  - destruct (IH _ H) as (dim & Hin & Hd). exists dim. split; [right |]; assumption.
  - exists d. split; [left; reflexivity | assumption].
Qed.

(** X15: the callback of [SimplifyReshape] returns only when [x_] is
    bound and the checked type of [pre] is a tensor type; what it returns
    is then the reshape of the bound node to the shape of that type when
    the shape is constant, and the unchanged [post] node when some
    dimension is not an integer constant.  In particular the result is
    [post] or a reshape, whatever the bindings. *)
Theorem reshape_callback_results (self : SimplifyReshape.t) (pre post r : Expr)
    (nm : NodeMap) :
  SimplifyReshape.callback self pre post nm = Ok r ->
  exists x xs shape dtype,
    Map_at nm (SimplifyReshape.x_ self) = Ok (x :: xs)
    /\ get_checked_type_ pre = Some (TensorType shape dtype)
    /\ ((exists dims, shape = map IntImm dims /\ r = MakeReshape x dims)
        \/ ((exists dim, In dim shape /\ as_IntImmNode dim = None) /\ r = post)).
Proof.
  unfold SimplifyReshape.callback, checked_type, Downcast_TensorType. intros H.
  destruct (Map_at nm (SimplifyReshape.x_ self)) as [[|x xs]|]; cbn [bindR] in H;
    try discriminate.
  rewrite (Array_at_head _ x xs) in H. cbn [bindR] in H.
  destruct (get_checked_type_ pre) as [[shape dtype | |]|];
    cbn [bindR ICHECK_ptr as_TensorTypeNode] in H; try discriminate.
  exists x, xs, shape, dtype. split; [reflexivity |]. split; [reflexivity |].
  cbn [fst] in H.
  destruct (SimplifyReshape.collect_newshape shape []) as [[|] newshape] eqn:Ec.
  - left. destruct (collect_newshape_true _ _ _ Ec) as (dims & -> & ->).
    exists dims. split; [reflexivity |]. inversion H; reflexivity.
  - right. split; [exact (collect_newshape_false _ _ _ Ec) | inversion H; reflexivity].
Qed.

Lemma reshape_callback_results_witness :
  exists x xs shape dtype,
    Map_at (reshape_bindings ex_reshape_pair) (SimplifyReshape.x_ registered_SimplifyReshape)
    = Ok (x :: xs)
    /\ get_checked_type_ ex_reshape_pair = Some (TensorType shape dtype)
    /\ ((exists dims, shape = map IntImm dims /\ MakeReshape ex_v [6; 4]%Z = MakeReshape x dims)
        \/ ((exists dim, In dim shape /\ as_IntImmNode dim = None)
            /\ MakeReshape ex_v [6; 4]%Z = ex_reshape_pair)).
Proof.
  refine (reshape_callback_results registered_SimplifyReshape ex_reshape_pair ex_reshape_pair
            (MakeReshape ex_v [6; 4]%Z) (reshape_bindings ex_reshape_pair) _).
  vm_compute. reflexivity.
Defined.

(** ** The rules and nodes that are no calls *)

(** X16: none of the three patterns of the simplifier matches a node that
    is not a call, whatever has been bound before: variables, constants,
    operators, tuples, projections and functions are never handed to a
    callback. *)
Theorem rules_match_only_calls (reg : string -> string -> option ObjectRef)
    (e : Expr) (memo : NodeMap) :
  as_CallNode e = None ->
  Forall (fun cb => Match reg (cb_pattern cb) e memo = None) registry.
Proof.
  intros He. destruct e; try discriminate He; repeat constructor.
Qed.

Lemma rules_match_only_calls_witness :
  Forall (fun cb => Match arith_registry (cb_pattern cb) ex_x [] = None) registry.
Proof.
  exact (rules_match_only_calls arith_registry ex_x [] eq_refl).
Defined.
